(** * A bi-temporal record store: [temporal_db.py]

    Shallow embedding of the [TemporalDB] class: the versioned record,
    the aliveness predicate, the point and history queries and the
    logical update and delete, followed by the properties of these
    operations.

    Python objects are modelled as follows.
    - [datetime], [date] and [time] are records of integer fields; the
      comparison operators go through [_cmp], the lexicographic
      comparison of the field tuples, as in the [datetime] module.
    - [self.records] is a list of mutable [TemporalRecord] objects.  Every
      object is appended once, so the position in the list is the
      object's identity; assigning to [rec.system_to] is an update of the
      list at that position.
    - [self.loinc_name] and the local [groups] dictionary are finite maps.
    - [max] on an empty sequence raises [ValueError]; results live in a
      small error monad so that this outcome is visible.
    - [print] calls are collected as the list of printed lines. *)

From Stdlib Require Import ZArith Lia.
From stdpp Require Import base numbers option list strings gmap sorting.

(** ** The [datetime] module *)

Record date := mk_date { d_year : Z; d_month : Z; d_day : Z }.

Record time := mk_time {
  t_hour : Z; t_minute : Z; t_second : Z; t_microsecond : Z }.

Record datetime := mk_datetime {
  year : Z; month : Z; day : Z;
  hour : Z; minute : Z; second : Z; microsecond : Z }.

#[global] Instance date_eq_dec : EqDecision date.
Proof. solve_decision. Defined.

#[global] Instance time_eq_dec : EqDecision time.
Proof. solve_decision. Defined.

#[global] Instance datetime_eq_dec : EqDecision datetime.
Proof. solve_decision. Defined.

(** [datetime(y, m, d)]: the time of day defaults to midnight. *)
Definition datetime_ymd (y m d : Z) : datetime := mk_datetime y m d 0 0 0 0.

(** [datetime.min], the earliest representable [datetime]. *)
Definition datetime_min : datetime := mk_datetime 1 1 1 0 0 0 0.

(** [dt.date()] and [dt.time()]. *)
Definition dt_date (dt : datetime) : date :=
  mk_date (year dt) (month dt) (day dt).

Definition dt_time (dt : datetime) : time :=
  mk_time (hour dt) (minute dt) (second dt) (microsecond dt).

(** Comparison of two tuples of integers, first difference decides. *)
Fixpoint tuple_cmp (x y : list Z) : comparison :=
  match x, y with
  | [], [] => Eq
  | [], _ :: _ => Lt
  | _ :: _, [] => Gt
  | a :: x', b :: y' =>
      match (a ?= b)%Z with
      | Eq => tuple_cmp x' y'
      | c => c
      end
  end.

Definition dt_fields (dt : datetime) : list Z :=
  [year dt; month dt; day dt; hour dt; minute dt; second dt; microsecond dt].

(** [datetime._cmp] for naive datetimes. *)
Definition _cmp (a b : datetime) : comparison :=
  tuple_cmp (dt_fields a) (dt_fields b).

(** The rich comparisons [a < b], [a <= b], [a > b]. *)
Definition dt_lt (a b : datetime) : Prop := _cmp a b = Lt.
Definition dt_le (a b : datetime) : Prop := _cmp a b ≠ Gt.
Definition dt_gt (a b : datetime) : Prop := _cmp a b = Gt.

#[global] Instance dt_lt_dec : RelDecision dt_lt.
Proof. intros a b. unfold dt_lt. solve_decision. Defined.

#[global] Instance dt_le_dec : RelDecision dt_le.
Proof. intros a b. unfold dt_le. solve_decision. Defined.

#[global] Instance dt_gt_dec : RelDecision dt_gt.
Proof. intros a b. unfold dt_gt. solve_decision. Defined.

(** [datetime] objects are hashable and compared by value, so they can
    be dictionary keys. *)
#[global] Instance datetime_countable : Countable datetime.
Proof.
  refine (inj_countable'
    (λ d, (year d, month d, day d, hour d, minute d, second d, microsecond d))
    (λ '(y, mo, d, h, mi, s, us), mk_datetime y mo d h mi s us) _).
  by intros [].
Defined.

(** ** Exceptions and the builtins [max] and [sorted] *)

Inductive exn := ValueError | KeyError.

Inductive result (A : Type) :=
  | Return (a : A)
  | Raise (e : exn).
Arguments Return {A} a.
Arguments Raise {A} e.

#[global] Instance result_bind : MBind result := λ A B k m,
  match m with
  | Return a => k a
  | Raise e => Raise e
  end.

(** [max(l, key=key)]: the first element whose key no later element
    strictly exceeds; [ValueError] on an empty sequence. *)
Definition max_step {A} (key : A → datetime) (best y : A) : A :=
  if decide (dt_gt (key y) (key best)) then y else best.

Definition py_max {A} (key : A → datetime) (l : list A) : result A :=
  match l with
  | [] => Raise ValueError
  | x :: l' => Return (foldl (max_step key) x l')
  end.

(** A loop that builds a list with [append], one element per iteration. *)
Fixpoint for_each {A B} (f : A → result B) (l : list A) : result (list B) :=
  match l with
  | [] => Return []
  | x :: l' => y ← f x; ys ← for_each f l'; Return (y :: ys)
  end.

(** [d[k]]: [KeyError] when the key is missing. *)
Definition dict_get {K V} `{Countable K} (d : gmap K V) (k : K) : result V :=
  match d !! k with
  | Some v => Return v
  | None => Raise KeyError
  end.

(** [sorted(l)] on datetimes.  The only call sorts the keys of a
    dictionary, which are pairwise distinct. *)
Definition sorted (l : list datetime) : list datetime := merge_sort dt_le l.

(** [enumerate(l)]: every element with its position. *)
Definition enumerate {A} (l : list A) : list (nat * A) := imap pair l.

(** ** Records and the store *)

(** The field [unit] of the source is [unit_] here. *)
Record TemporalRecord := mk_record {
  first_name : string;
  last_name : string;
  loinc_num : string;
  value : string;
  unit_ : string;
  valid_time : datetime;
  system_from : datetime;
  system_to : option datetime }.

#[global] Instance TemporalRecord_eq_dec : EqDecision TemporalRecord.
Proof. solve_decision. Defined.

Record TemporalDB := mk_db {
  current_time : datetime;
  records : list TemporalRecord;
  loinc_name : gmap string string }.

(** [rec.system_to = t] *)
Definition set_system_to (rec : TemporalRecord) (t : datetime) : TemporalRecord :=
  mk_record (first_name rec) (last_name rec) (loinc_num rec) (value rec)
    (unit_ rec) (valid_time rec) (system_from rec) (Some t).

Definition set_current_time (self : TemporalDB) (t : datetime) : TemporalDB :=
  mk_db t (records self) (loinc_name self).

Definition _is_alive_at (rec : TemporalRecord) (t : datetime) : bool :=
  if decide (dt_gt (system_from rec) t) then false
  else match system_to rec with
       | Some st => if decide (dt_le st t) then false else true
       | None => true
       end.

(** ** Queries *)

(** The dictionary returned by [query_value]. *)
Record ValueResult := mk_value_result {
  v_first_name : string;
  v_last_name : string;
  v_loinc : string;
  v_long_common_name : string;
  v_value : string;
  v_unit : string;
  v_valid_time : datetime;
  v_system_from : datetime;
  v_system_to : option datetime }.

Definition value_result (long_name : string) (best : TemporalRecord) : ValueResult :=
  mk_value_result (first_name best) (last_name best) (loinc_num best) long_name
    (value best) (unit_ best) (valid_time best) (system_from best)
    (system_to best).

(** [self.loinc_name.get(loinc_num, loinc_num)] *)
Definition long_name_of (self : TemporalDB) (loinc : string) : string :=
  default loinc (loinc_name self !! loinc).

(** Patient, code and calendar day of the measurement. *)
Definition on_day (fname lname loinc : string) (date : datetime)
    (r : TemporalRecord) : Prop :=
  first_name r = fname ∧ last_name r = lname ∧ loinc_num r = loinc
  ∧ dt_date (valid_time r) = dt_date date.

#[global] Instance on_day_dec fname lname loinc date r :
  Decision (on_day fname lname loinc date r).
Proof. unfold on_day. solve_decision. Defined.

Definition query_value (self : TemporalDB) (fname lname loinc : string)
    (date : datetime) (time : option time)
    (perspective_time : option datetime) : result (option ValueResult) :=
  let perspective_time := default (current_time self) perspective_time in
  let candidates := filter (on_day fname lname loinc date) (records self) in
  if decide (candidates = []) then Return None else
  match time with
  | Some time =>
      let same_time := filter (λ r, dt_time (valid_time r) = time) candidates in
      if decide (same_time = []) then Return None else
      let alive := filter (λ r, _is_alive_at r perspective_time) same_time in
      if decide (alive = []) then Return None else
      best ← py_max system_from alive;
      Return (Some (value_result (long_name_of self loinc) best))
  | None =>
      let alive := filter (λ r, _is_alive_at r perspective_time) candidates in
      if decide (alive = []) then Return None else
      max_valid ← py_max id (valid_time <$> alive);
      let latest_same_time := filter (λ r, valid_time r = max_valid) alive in
      best ← py_max system_from latest_same_time;
      Return (Some (value_result (long_name_of self loinc) best))
  end.

(** One dictionary of the list returned by [query_history]. *)
Record HistoryRow := mk_history_row {
  h_valid_time : datetime;
  h_value : string;
  h_unit : string;
  h_system_from : datetime;
  h_system_to : option datetime;
  h_long_common_name : string }.

Definition history_row (long_name : string) (rec : TemporalRecord) : HistoryRow :=
  mk_history_row (valid_time rec) (value rec) (unit_ rec) (system_from rec)
    (system_to rec) long_name.

(** Patient, code and valid time within the inclusive range. *)
Definition in_valid_range (fname lname loinc : string)
    (valid_from valid_to : datetime) (r : TemporalRecord) : Prop :=
  first_name r = fname ∧ last_name r = lname ∧ loinc_num r = loinc
  ∧ dt_le valid_from (valid_time r) ∧ dt_le (valid_time r) valid_to.

#[global] Instance in_valid_range_dec fname lname loinc vf vt r :
  Decision (in_valid_range fname lname loinc vf vt r).
Proof. unfold in_valid_range. solve_decision. Defined.

Definition in_tx_range (tx_from tx_to : datetime) (r : TemporalRecord) : Prop :=
  dt_le tx_from (system_from r) ∧ dt_le (system_from r) tx_to.

#[global] Instance in_tx_range_dec tx_from tx_to r :
  Decision (in_tx_range tx_from tx_to r).
Proof. unfold in_tx_range. solve_decision. Defined.

(** The body of the grouping loop:
    [if key not in groups or groups[key].system_from < r.system_from]. *)
Definition group_step (groups : gmap datetime TemporalRecord)
    (r : TemporalRecord) : gmap datetime TemporalRecord :=
  let key := valid_time r in
  match groups !! key with
  | None => <[key := r]> groups
  | Some old =>
      if decide (dt_lt (system_from old) (system_from r))
      then <[key := r]> groups else groups
  end.

Definition query_history (self : TemporalDB) (fname lname loinc : string)
    (valid_from valid_to : datetime)
    (tx_from tx_to : option datetime) : result (list HistoryRow) :=
  let tx_from := default (datetime_ymd 1900 1 1) tx_from in
  let tx_to := default (current_time self) tx_to in
  let candidates :=
    filter (in_valid_range fname lname loinc valid_from valid_to) (records self) in
  let tx_filtered := filter (in_tx_range tx_from tx_to) candidates in
  let groups := foldl group_step ∅ tx_filtered in
  let long_name := long_name_of self loinc in
  for_each (λ vt, rec ← dict_get groups vt; Return (history_row long_name rec))
           (sorted (map_to_list groups).*1).

(** ** Updates *)

(** What a [print] call writes: its arguments, in order. *)
Inductive printed :=
  | PStr (s : string)
  | PTime (t : datetime)
  | PRec (r : TemporalRecord).

(** Patient, code and the exact valid time, alive at [t]. *)
Definition current_at (fname lname loinc : string) (vt t : datetime)
    (r : TemporalRecord) : Prop :=
  first_name r = fname ∧ last_name r = lname ∧ loinc_num r = loinc
  ∧ valid_time r = vt ∧ _is_alive_at r t.

#[global] Instance current_at_dec fname lname loinc vt t r :
  Decision (current_at fname lname loinc vt t r).
Proof. unfold current_at. solve_decision. Defined.

Definition update_value (self : TemporalDB) (fname lname loinc : string)
    (vt : datetime) (new_value : string) (t_update : option datetime)
    : result (TemporalDB * list (list printed)) :=
  let t_update := default (current_time self) t_update in
  let candidates :=
    filter (λ c, current_at fname lname loinc vt t_update c.2)
           (enumerate (records self)) in
  if decide (candidates = []) then
    Return (self, [[PStr "No record found to update."]])
  else
  '(i, current) ← py_max (λ c, system_from c.2) candidates;
  let current := set_system_to current t_update in
  let new_rec :=
    mk_record (first_name current) (last_name current) (loinc_num current)
      new_value (unit_ current) (valid_time current) t_update None in
  Return (mk_db (current_time self)
                (<[i := current]> (records self) ++ [new_rec])
                (loinc_name self),
          [[PStr "Update done."];
           [PStr "Old version:"; PRec current];
           [PStr "New version:"; PRec new_rec]]).

(** Patient, code and calendar day, alive at [t]. *)
Definition on_day_at (fname lname loinc : string) (date t : datetime)
    (r : TemporalRecord) : Prop :=
  first_name r = fname ∧ last_name r = lname ∧ loinc_num r = loinc
  ∧ dt_date (valid_time r) = dt_date date ∧ _is_alive_at r t.

#[global] Instance on_day_at_dec fname lname loinc date t r :
  Decision (on_day_at fname lname loinc date t r).
Proof. unfold on_day_at. solve_decision. Defined.

(** The end of [delete_value]: pick the target and close it. *)
Definition close_latest (self : TemporalDB) (t_delete : datetime)
    (candidates : list (nat * TemporalRecord))
    : result (TemporalDB * list (list printed)) :=
  '(i, target) ← py_max (λ c, system_from c.2) candidates;
  let target := set_system_to target t_delete in
  Return (mk_db (current_time self) (<[i := target]> (records self))
                (loinc_name self),
          [[PStr "Logical delete done. Record closed at:"; PTime t_delete];
           [PRec target]]).

Definition delete_value (self : TemporalDB) (fname lname loinc : string)
    (date : datetime) (time : option time) (t_delete : option datetime)
    : result (TemporalDB * list (list printed)) :=
  let t_delete := default (current_time self) t_delete in
  let candidates :=
    filter (λ c, on_day_at fname lname loinc date t_delete c.2)
           (enumerate (records self)) in
  if decide (candidates = []) then
    Return (self, [[PStr "No record found to delete."]])
  else
  match time with
  | Some time =>
      let candidates :=
        filter (λ c, dt_time (valid_time c.2) = time) candidates in
      if decide (candidates = []) then
        Return (self, [[PStr "No record with this exact time."]])
      else close_latest self t_delete candidates
  | None =>
      max_valid ← py_max id ((λ c, valid_time c.2) <$> candidates);
      let candidates := filter (λ c, valid_time c.2 = max_valid) candidates in
      close_latest self t_delete candidates
  end.

(** ** Sequences of mutations *)

Inductive mutation :=
  | Update (fname lname loinc : string) (vt : datetime) (new_value : string)
           (t_update : option datetime)
  | Delete (fname lname loinc : string) (date : datetime) (time : option time)
           (t_delete : option datetime).

Definition apply_mutation (self : TemporalDB) (op : mutation)
    : result (TemporalDB * list (list printed)) :=
  match op with
  | Update fname lname loinc vt new_value t =>
      update_value self fname lname loinc vt new_value t
  | Delete fname lname loinc date time t =>
      delete_value self fname lname loinc date time t
  end.

(** The transaction time a call works with. *)
Definition mutation_time (self : TemporalDB) (op : mutation) : datetime :=
  match op with
  | Update _ _ _ _ _ t | Delete _ _ _ _ _ t => default (current_time self) t
  end.

(** The calls of a list, one after the other, on the same store. *)
Fixpoint run (self : TemporalDB) (ops : list mutation) : result TemporalDB :=
  match ops with
  | [] => Return self
  | op :: ops' => '(self', _) ← apply_mutation self op; run self' ops'
  end.

(** ** Vocabulary of the statements *)

(** The records [query_value] chooses from at time [t], by mode. *)
Definition exact_alive (self : TemporalDB) (fname lname loinc : string)
    (date : datetime) (tm : time) (t : datetime) : list TemporalRecord :=
  filter (λ r, _is_alive_at r t)
    (filter (λ r, dt_time (valid_time r) = tm)
       (filter (on_day fname lname loinc date) (records self))).

Definition day_alive (self : TemporalDB) (fname lname loinc : string)
    (date : datetime) (t : datetime) : list TemporalRecord :=
  filter (λ r, _is_alive_at r t)
    (filter (on_day fname lname loinc date) (records self)).

(** The grouping loop of [query_history] seen at one key [k]. *)
Definition group_pick (k : datetime) (o : option TemporalRecord)
    (r : TemporalRecord) : option TemporalRecord :=
  if decide (valid_time r = k) then
    match o with
    | None => Some r
    | Some old =>
        if decide (dt_lt (system_from old) (system_from r))
        then Some r else Some old
    end
  else o.

(** A record that [query_history] takes into account. *)
Definition in_history (self : TemporalDB) (fname lname loinc : string)
    (valid_from valid_to tx_from tx_to : datetime) (r : TemporalRecord) : Prop :=
  r ∈ records self
  ∧ in_valid_range fname lname loinc valid_from valid_to r
  ∧ in_tx_range tx_from tx_to r.

(** The version appended by [update_value] when it closes [current]. *)
Definition new_version (current : TemporalRecord) (new_value : string)
    (t : datetime) : TemporalRecord :=
  mk_record (first_name current) (last_name current) (loinc_num current)
    new_value (unit_ current) (valid_time current) t None.

(** What [delete_value] requires of a candidate beyond day and
    aliveness when a time of day is given. *)
Definition at_time (time : option time) (r : TemporalRecord) : Prop :=
  match time with
  | Some tm => dt_time (valid_time r) = tm
  | None => True
  end.

(** [target] is a record [delete_value] may select in [l]. *)
Definition delete_target (fname lname loinc : string) (date : datetime)
    (time : option time) (t : datetime) (l : list TemporalRecord)
    (target : TemporalRecord) : Prop :=
  on_day_at fname lname loinc date t target
  ∧ at_time time target
  ∧ ∀ r, r ∈ l → on_day_at fname lname loinc date t r → at_time time r →
      match time with
      | Some _ => dt_le (system_from r) (system_from target)
      | None =>
          dt_le (valid_time r) (valid_time target)
          ∧ (valid_time r = valid_time target →
             dt_le (system_from r) (system_from target))
      end.

(** Same patient, code and valid time. *)
Definition same_key (r1 r2 : TemporalRecord) : Prop :=
  first_name r1 = first_name r2 ∧ last_name r1 = last_name r2
  ∧ loinc_num r1 = loinc_num r2 ∧ valid_time r1 = valid_time r2.

(** No key has two open versions. *)
Definition at_most_one_open (l : list TemporalRecord) : Prop :=
  ∀ i j ri rj,
    l !! i = Some ri → l !! j = Some rj → same_key ri rj →
    system_to ri = None → system_to rj = None → i = j.

(** No version of [l] was closed after [t]. *)
Definition closed_by (t : datetime) (l : list TemporalRecord) : Prop :=
  ∀ r st, r ∈ l → system_to r = Some st → dt_le st t.

(** The calls come in the order of their transaction times, none
    earlier than a [system_to] already in the store. *)
Definition chronological (self : TemporalDB) (ops : list mutation) : Prop :=
  StronglySorted dt_le (mutation_time self <$> ops)
  ∧ Forall (λ op, closed_by (mutation_time self op) (records self)) ops.

(** The effect of one mutation at time [t] on the list of records:
    nothing, or one alive record closed at [t] and at most one open
    version of the same key appended. *)
Definition closes_at (t : datetime) (l l' : list TemporalRecord) : Prop :=
  l' = l
  ∨ ∃ i target tail,
      l !! i = Some target ∧ _is_alive_at target t
      ∧ l' = <[i := set_system_to target t]> l ++ tail
      ∧ (tail = [] ∨ ∃ v, tail = [new_version target v t]).

(** The fields of a record other than [system_to]. *)
Definition same_version (r r' : TemporalRecord) : Prop :=
  first_name r' = first_name r ∧ last_name r' = last_name r
  ∧ loinc_num r' = loinc_num r ∧ value r' = value r ∧ unit_ r' = unit_ r
  ∧ valid_time r' = valid_time r ∧ system_from r' = system_from r.

(** ** Example stores *)

Definition dt (y mo d h mi : Z) : datetime := mk_datetime y mo d h mi 0 0.

(** One measurement, taken and recorded on 1 January 2024. *)
Definition john_record : TemporalRecord :=
  mk_record "John" "Doe" "12345-6" "5" "mg"
    (dt 2024 1 1 10 0) (dt 2024 1 1 10 5) None.

Definition john_db : TemporalDB :=
  mk_db (dt 2024 6 1 0 0) [john_record] ∅.

(** One measurement whose transaction time lies in 1899. *)
Definition old_record : TemporalRecord :=
  mk_record "John" "Doe" "12345-6" "5" "mg"
    (dt 1899 12 30 10 0) (dt 1899 12 31 9 0) None.

Definition old_db : TemporalDB :=
  mk_db (dt 2024 6 1 0 0) [old_record] ∅.

(** Two measurements of the same day, at 08:00 and at 14:00. *)
Definition morning_record : TemporalRecord :=
  mk_record "John" "Doe" "12345-6" "5" "mg"
    (dt 2024 1 1 8 0) (dt 2024 1 1 8 5) None.

Definition afternoon_record : TemporalRecord :=
  mk_record "John" "Doe" "12345-6" "6" "mg"
    (dt 2024 1 1 14 0) (dt 2024 1 1 14 5) None.

Definition day_db : TemporalDB :=
  mk_db (dt 2024 6 1 0 0) [morning_record; afternoon_record] ∅.

(** John's measurement, corrected once on 10 January. *)
Definition corrected_db : TemporalDB :=
  mk_db (dt 2024 6 1 0 0)
    [set_system_to john_record (dt 2024 1 10 0 0);
     new_version john_record "6" (dt 2024 1 10 0 0)] ∅.

(** Two corrections of John's measurement, the second at an earlier
    transaction time than the first. *)
Definition backdated_updates : list mutation :=
  [Update "John" "Doe" "12345-6" (dt 2024 1 1 10 0) "7" (Some (dt 2024 1 20 0 0));
   Update "John" "Doe" "12345-6" (dt 2024 1 1 10 0) "8" (Some (dt 2024 1 15 0 0))].

(** A correction followed by a deletion, in the order of time. *)
Definition ordered_mutations : list mutation :=
  [Update "John" "Doe" "12345-6" (dt 2024 1 1 10 0) "7" (Some (dt 2024 1 15 0 0));
   Delete "John" "Doe" "12345-6" (dt 2024 1 1 0 0) None (Some (dt 2024 1 20 0 0))].

(** A deletion on 1 February and one back-dated to 15 January. *)
Definition delete_february : mutation :=
  Delete "John" "Doe" "12345-6" (dt 2024 1 1 0 0) None (Some (dt 2024 2 1 0 0)).

Definition delete_january : mutation :=
  Delete "John" "Doe" "12345-6" (dt 2024 1 1 0 0) None (Some (dt 2024 1 15 0 0)).

(** ** Construction and sessions *)

(** A row of the spreadsheet as [_load_excel] reads it, after the
    conversions to [str] and to [datetime] that the loop applies to the
    cells. *)
Record ExcelRow := mk_row {
  row_first_name : string;
  row_last_name : string;
  row_loinc_num : string;
  row_value : string;
  row_unit : string;
  row_valid_start_time : datetime;
  row_transaction_time : datetime }.

Definition record_of_row (row : ExcelRow) : TemporalRecord :=
  mk_record (row_first_name row) (row_last_name row) (row_loinc_num row)
    (row_value row) (row_unit row) (row_valid_start_time row)
    (row_transaction_time row) None.

(** The loop of [_load_excel]: one [append] per row. *)
Definition _load_excel (records : list TemporalRecord) (rows : list ExcelRow)
    : list TemporalRecord :=
  foldl (λ records row, records ++ [record_of_row row]) records rows.

(** The dictionary comprehension of [_load_loinc] over the rows
    [(LOINC_NUM, LONG_COMMON_NAME)]: a later row replaces an earlier one
    of the same code. *)
Definition _load_loinc (rows : list (string * string)) : gmap string string :=
  foldl (λ names row, <[row.1 := row.2]> names) ∅ rows.

(** [TemporalDB(excel_path, loinc_csv_path)], given the clock reading
    [now] and the contents of the two files. *)
Definition __init__ (now : datetime) (excel_rows : list ExcelRow)
    (loinc_rows : list (string * string)) : TemporalDB :=
  mk_db now (_load_excel [] excel_rows) (_load_loinc loinc_rows).

(** The calls the menu makes on a loaded store: options 4, 5 and 6 pass
    no transaction time, so the clock of the store is used. *)
Inductive call :=
  | CallUpdate (fname lname loinc : string) (vt : datetime) (new_value : string)
  | CallDelete (fname lname loinc : string) (date : datetime) (time : option time)
  | CallSetTime (new_now : datetime).

Definition do_call (self : TemporalDB) (c : call) : result TemporalDB :=
  match c with
  | CallUpdate fname lname loinc vt new_value =>
      '(self', _) ← update_value self fname lname loinc vt new_value None;
      Return self'
  | CallDelete fname lname loinc date time =>
      '(self', _) ← delete_value self fname lname loinc date time None;
      Return self'
  | CallSetTime new_now => Return (set_current_time self new_now)
  end.

Fixpoint session (self : TemporalDB) (calls : list call) : result TemporalDB :=
  match calls with
  | [] => Return self
  | c :: calls' => self' ← do_call self c; session self' calls'
  end.

(** The clock is never set back. *)
Fixpoint clock_forward (now : datetime) (calls : list call) : Prop :=
  match calls with
  | [] => True
  | CallSetTime new_now :: calls' =>
      dt_le now new_now ∧ clock_forward new_now calls'
  | _ :: calls' => clock_forward now calls'
  end.

(** The number of [update_value] calls of a list. *)
Fixpoint updates (ops : list mutation) : nat :=
  match ops with
  | [] => 0
  | Update _ _ _ _ _ _ :: ops' => S (updates ops')
  | Delete _ _ _ _ _ _ :: ops' => updates ops'
  end.

(** A query result without its [system_to] entry. *)
Definition without_system_to (res : result (option ValueResult))
    : result (option ValueResult) :=
  match res with
  | Return (Some v) =>
      Return (Some (mk_value_result (v_first_name v) (v_last_name v)
                      (v_loinc v) (v_long_common_name v) (v_value v)
                      (v_unit v) (v_valid_time v) (v_system_from v) None))
  | _ => res
  end.

(** [r'] is [r] up to [system_to], and is alive at [p] exactly when [r]
    is. *)
Definition same_at (p : datetime) (r r' : TemporalRecord) : Prop :=
  same_version r r' ∧ (_is_alive_at r p ↔ _is_alive_at r' p).

(** Patient, code and valid time of a row. *)
Definition row_key (row : ExcelRow) : string * string * string * datetime :=
  (row_first_name row, row_last_name row, row_loinc_num row,
   row_valid_start_time row).

(** Two rows of a spreadsheet and a catalog with a repeated code. *)
Definition example_rows : list ExcelRow :=
  [mk_row "John" "Doe" "12345-6" "5" "mg" (dt 2024 1 1 8 0) (dt 2024 1 1 8 5);
   mk_row "John" "Doe" "12345-6" "6" "mg" (dt 2024 1 1 14 0) (dt 2024 1 1 14 5)].

Definition example_catalog : list (string * string) :=
  [("12345-6", "Glucose"); ("777-1", "Sodium"); ("12345-6", "Glucose in blood")].

(** A menu session: a correction, the clock moved forward, a deletion. *)
Definition example_calls : list call :=
  [CallUpdate "John" "Doe" "12345-6" (dt 2024 1 1 8 0) "7";
   CallSetTime (dt 2024 7 1 0 0);
   CallDelete "John" "Doe" "12345-6" (dt 2024 1 1 0 0) None].

(** A history row, and a history, without the [system_to] entries. *)
Definition row_without_system_to (row : HistoryRow) : HistoryRow :=
  mk_history_row (h_valid_time row) (h_value row) (h_unit row)
    (h_system_from row) None (h_long_common_name row).

Definition history_without_system_to (res : result (list HistoryRow))
    : result (list HistoryRow) :=
  match res with
  | Return rows => Return (row_without_system_to <$> rows)
  | Raise e => Raise e
  end.

(** No two versions of a key are alive at the same instant. *)
Definition no_overlap (l : list TemporalRecord) : Prop :=
  ∀ i j ri rj p,
    l !! i = Some ri → l !! j = Some rj → same_key ri rj →
    _is_alive_at ri p → _is_alive_at rj p → i = j.

(** Three open versions of John's measurement; the last two were
    recorded at the same transaction time. *)
Definition tie_first : TemporalRecord :=
  mk_record "John" "Doe" "12345-6" "6" "mg"
    (dt 2024 1 1 10 0) (dt 2024 1 5 0 0) None.

Definition tie_second : TemporalRecord :=
  mk_record "John" "Doe" "12345-6" "7" "mg"
    (dt 2024 1 1 10 0) (dt 2024 1 5 0 0) None.

Definition tie_db : TemporalDB :=
  mk_db (dt 2024 6 1 0 0) [john_record; tie_first; tie_second] ∅.

(** * Properties *)

(** ** The order on datetimes *)

Section tuple_order.
Implicit Types x y z : list Z.

Lemma tuple_cmp_refl x : tuple_cmp x x = Eq.
Proof. induction x as [|a x IH]; simpl; [done|]. by rewrite Z.compare_refl. Qed.

Lemma tuple_cmp_eq x y : tuple_cmp x y = Eq → x = y.
Proof.
  revert y; induction x as [|a x IH]; intros [|b y]; simpl; try done.
  destruct (Z.compare_spec a b); try done.
  intros ?; f_equal; auto.
Qed.

Lemma tuple_cmp_opp x y : tuple_cmp y x = CompOpp (tuple_cmp x y).
Proof.
  revert y; induction x as [|a x IH]; intros [|b y]; simpl; try done.
  rewrite (Z.compare_antisym a b).
  destruct (a ?= b)%Z; simpl; auto.
Qed.

Lemma tuple_cmp_le_trans x y z :
  tuple_cmp x y ≠ Gt → tuple_cmp y z ≠ Gt → tuple_cmp x z ≠ Gt.
Proof.
  revert y z; induction x as [|a x IH]; intros [|b y] [|c z]; simpl; try done.
  destruct (Z.compare_spec a b), (Z.compare_spec b c), (Z.compare_spec a c);
    try done; try lia; eauto.
Qed.
End tuple_order.

Lemma dt_fields_inj a b : dt_fields a = dt_fields b → a = b.
Proof. destruct a, b; unfold dt_fields; simpl. by intros [= -> -> -> -> -> -> ->]. Qed.

Lemma _cmp_eq a b : _cmp a b = Eq ↔ a = b.
Proof.
  split.
  - intros H. by apply dt_fields_inj, tuple_cmp_eq.
  - intros ->. apply tuple_cmp_refl.
Qed.

Lemma _cmp_opp a b : _cmp b a = CompOpp (_cmp a b).
Proof. apply tuple_cmp_opp. Qed.

Lemma dt_gt_lt a b : dt_gt a b ↔ dt_lt b a.
Proof.
  unfold dt_gt, dt_lt. rewrite (_cmp_opp a b).
  destruct (_cmp a b); simpl; split; congruence.
Qed.

Lemma dt_le_not_gt a b : dt_le a b ↔ ¬ dt_gt a b.
Proof. done. Qed.

Lemma dt_not_le_lt a b : ¬ dt_le a b ↔ dt_lt b a.
Proof.
  rewrite <- dt_gt_lt. unfold dt_le, dt_gt.
  destruct (_cmp a b); intuition congruence.
Qed.

Lemma dt_le_lt_eq a b : dt_le a b ↔ dt_lt a b ∨ a = b.
Proof.
  rewrite <- _cmp_eq. unfold dt_le, dt_lt.
  destruct (_cmp a b); intuition congruence.
Qed.

Lemma dt_lt_le a b : dt_lt a b → dt_le a b.
Proof. rewrite dt_le_lt_eq. auto. Qed.

Lemma dt_lt_irrefl a : ¬ dt_lt a a.
Proof. unfold dt_lt. by rewrite (proj2 (_cmp_eq a a) eq_refl). Qed.

#[global] Instance dt_le_refl : Reflexive dt_le.
Proof. intros a. apply dt_le_lt_eq. by right. Qed.

#[global] Instance dt_le_trans : Transitive dt_le.
Proof. intros a b c. apply tuple_cmp_le_trans. Qed.

#[global] Instance dt_le_total : Total dt_le.
Proof.
  intros a b. unfold dt_le. rewrite (_cmp_opp a b).
  destruct (_cmp a b); simpl; auto.
Qed.

#[global] Instance dt_le_antisym : AntiSymm (=) dt_le.
Proof.
  intros a b Hab Hba. apply _cmp_eq.
  unfold dt_le in *. rewrite (_cmp_opp a b) in Hba.
  destruct (_cmp a b); simpl in *; done.
Qed.

Lemma dt_lt_le_trans a b c : dt_lt a b → dt_le b c → dt_lt a c.
Proof.
  intros Hab Hbc. apply dt_not_le_lt. intros Hca.
  apply (proj2 (dt_not_le_lt b a)); [done|]. by etrans.
Qed.

Lemma dt_le_lt_trans a b c : dt_le a b → dt_lt b c → dt_lt a c.
Proof.
  intros Hab Hbc. apply dt_not_le_lt. intros Hca.
  apply (proj2 (dt_not_le_lt c b)); [done|]. by etrans.
Qed.

(** ** The builtin [max] *)

Section py_max.
Context {A : Type} (key : A → datetime).
Implicit Types l : list A.

Lemma max_step_elem best y :
  max_step key best y = best ∨ max_step key best y = y.
Proof. unfold max_step. case_decide; auto. Qed.

Lemma max_step_ge_l best y : dt_le (key best) (key (max_step key best y)).
Proof.
  unfold max_step. case_decide as Hgt; [|done].
  by apply dt_lt_le, dt_gt_lt.
Qed.

Lemma max_step_ge_r best y : dt_le (key y) (key (max_step key best y)).
Proof. unfold max_step. case_decide as Hgt; done. Qed.

Lemma foldl_max_elem l x : foldl (max_step key) x l ∈ x :: l.
Proof.
  revert x; induction l as [|y l IH]; intros x; simpl; [by left|].
  specialize (IH (max_step key x y)).
  apply elem_of_cons in IH as [E|Hl].
  - rewrite E. destruct (max_step_elem x y) as [-> | ->]; [left|right; left].
  - by do 2 right.
Qed.

Lemma foldl_max_ge_init l x : dt_le (key x) (key (foldl (max_step key) x l)).
Proof.
  revert x; induction l as [|y l IH]; intros x; simpl; [done|].
  etrans; [apply (max_step_ge_l x y)|apply IH].
Qed.

Lemma foldl_max_ge l x y :
  y ∈ x :: l → dt_le (key y) (key (foldl (max_step key) x l)).
Proof.
  revert x; induction l as [|z l IH]; intros x Hy; simpl.
  - apply list_elem_of_singleton in Hy as ->. done.
  - apply elem_of_cons in Hy as [->|Hy]; [apply (foldl_max_ge_init (z :: l))|].
    apply elem_of_cons in Hy as [->|Hy].
    + etrans; [apply (max_step_ge_r x z)|apply foldl_max_ge_init].
    + apply IH. set_solver.
Qed.

(** On a non-empty sequence [max] returns an element of it that is
    greatest for the key. *)
Lemma py_max_spec l :
  l ≠ [] →
  ∃ best, py_max key l = Return best ∧ best ∈ l
          ∧ ∀ y, y ∈ l → dt_le (key y) (key best).
Proof.
  destruct l as [|x l]; [done|]. intros _. eexists; split; [done|].
  split; [apply foldl_max_elem|]. intros y. apply foldl_max_ge.
Qed.
End py_max.

(** ** The aliveness predicate *)

(** C1: a record is alive at [t] exactly when its [system_from] is at
    or before [t] and its [system_to] is absent or after [t].  The
    predicate is a function of the record and the time alone: it reads
    no store and returns a boolean on every input. *)
Theorem is_alive_at_iff (r : TemporalRecord) (t : datetime) :
  _is_alive_at r t = true ↔
  dt_le (system_from r) t
  ∧ (system_to r = None ∨ ∃ st, system_to r = Some st ∧ dt_lt t st).
Proof.
  unfold _is_alive_at. case_decide as Hfrom.
  - split; [done|]. intros [Hle _]. exfalso. by apply Hle.
  - destruct (system_to r) as [st|].
    + case_decide as Hto.
      * split; [done|]. intros [_ [?|(st' & [= <-] & Hlt)]]; [done|].
        by apply dt_not_le_lt in Hlt.
      * apply dt_not_le_lt in Hto. split; [|done]. intros _. split; [done|].
        right. by exists st.
    + split; [|done]. intros _. split; [done|by left].
Qed.

(** The same, on the coercion of the boolean to a proposition. *)
Lemma alive_at_spec r t :
  _is_alive_at r t ↔
  dt_le (system_from r) t
  ∧ match system_to r with Some st => dt_lt t st | None => True end.
Proof.
  unfold _is_alive_at. case_decide as Hfrom.
  - split; [done|]. intros [Hle _]. by apply Hle.
  - destruct (system_to r) as [st|]; [|done].
    case_decide as Hto; [|by rewrite <- dt_not_le_lt].
    split; [done|]. intros [_ Hlt%dt_not_le_lt]. by apply Hlt.
Qed.

Lemma alive_open r t :
  _is_alive_at r t → (∀ st, system_to r = Some st → dt_le st t) →
  system_to r = None.
Proof.
  intros [_ Hal]%alive_at_spec Hclosed.
  destruct (system_to r) as [st|]; [|done].
  apply dt_not_le_lt in Hal. destruct Hal. by apply Hclosed.
Qed.

(** ** [query_value] *)

Lemma elem_of_exact_alive self fname lname loinc date tm t r :
  r ∈ exact_alive self fname lname loinc date tm t ↔
  r ∈ records self ∧ on_day fname lname loinc date r
  ∧ dt_time (valid_time r) = tm ∧ _is_alive_at r t.
Proof. unfold exact_alive. rewrite !list_elem_of_filter. tauto. Qed.

Lemma elem_of_day_alive self fname lname loinc date t r :
  r ∈ day_alive self fname lname loinc date t ↔
  r ∈ records self ∧ on_day fname lname loinc date r ∧ _is_alive_at r t.
Proof. unfold day_alive. rewrite !list_elem_of_filter. tauto. Qed.

Section query_value.
Context (self : TemporalDB) (fname lname loinc : string) (date : datetime).
Context (perspective_time : option datetime).

Let t := default (current_time self) perspective_time.
Let long_name := long_name_of self loinc.

Lemma query_value_exact_unfold tm :
  query_value self fname lname loinc date (Some tm) perspective_time =
  let alive := exact_alive self fname lname loinc date tm t in
  if decide (alive = []) then Return None
  else best ← py_max system_from alive;
       Return (Some (value_result long_name best)).
Proof.
  unfold query_value, exact_alive. fold t.
  destruct (decide (filter (on_day fname lname loinc date) (records self) = []))
    as [->|_]; [done|].
  destruct (decide (filter (λ r, dt_time (valid_time r) = tm)
      (filter (on_day fname lname loinc date) (records self)) = []))
    as [->|_]; done.
Qed.

Lemma query_value_day_unfold :
  query_value self fname lname loinc date None perspective_time =
  let alive := day_alive self fname lname loinc date t in
  if decide (alive = []) then Return None
  else max_valid ← py_max id (valid_time <$> alive);
       best ← py_max system_from (filter (λ r, valid_time r = max_valid) alive);
       Return (Some (value_result long_name best)).
Proof.
  unfold query_value, day_alive. fold t.
  destruct (decide (filter (on_day fname lname loinc date) (records self) = []))
    as [->|_]; done.
Qed.
End query_value.

(** C5: with an exact time, [query_value] finds nothing exactly when no
    record matches patient, code and day, or none of those has the given
    time of day, or none of the latter is alive at the perspective time.
    Otherwise it returns a record that matches, is alive, and has the
    greatest [system_from] among such records: the answer holds the
    patient, code, value, unit, valid time, [system_from] and
    [system_to] of that record, and the catalog name of the code or the
    code itself. *)
Theorem query_value_exact_time (self : TemporalDB) (fname lname loinc : string)
    (date : datetime) (tm : time) (perspective_time : option datetime) :
  let t := default (current_time self) perspective_time in
  let matches r :=
    first_name r = fname ∧ last_name r = lname ∧ loinc_num r = loinc
    ∧ dt_date (valid_time r) = dt_date date in
  let not_found :=
    (∀ r, r ∈ records self → ¬ matches r)
    ∨ (∀ r, r ∈ records self → matches r → dt_time (valid_time r) ≠ tm)
    ∨ (∀ r, r ∈ records self → matches r → dt_time (valid_time r) = tm →
            ¬ _is_alive_at r t) in
  (query_value self fname lname loinc date (Some tm) perspective_time
     = Return None ↔ not_found)
  ∧ (¬ not_found →
     ∃ best,
       best ∈ records self ∧ matches best
       ∧ dt_time (valid_time best) = tm ∧ _is_alive_at best t
       ∧ (∀ r, r ∈ records self → matches r →
               dt_time (valid_time r) = tm → _is_alive_at r t →
               dt_le (system_from r) (system_from best))
       ∧ query_value self fname lname loinc date (Some tm) perspective_time
         = Return (Some (mk_value_result (first_name best) (last_name best)
                           (loinc_num best)
                           (default loinc (loinc_name self !! loinc))
                           (value best) (unit_ best) (valid_time best)
                           (system_from best) (system_to best)))).
Proof.
  intros t matches not_found. rewrite query_value_exact_unfold. fold t. cbv zeta.
  set (alive := exact_alive self fname lname loinc date tm t).
  assert (Hnil : alive = [] ↔ not_found).
  { split.
    - intros Hnil. right; right. intros r Hr Hday Htm Hal.
      assert (r ∈ alive) as Hin by by apply elem_of_exact_alive.
      rewrite Hnil in Hin. by apply not_elem_of_nil in Hin.
    - intros Hnf. apply elem_of_nil_inv. intros r Hin.
      apply elem_of_exact_alive in Hin as (Hr & Hday & Htm & Hal).
      destruct Hnf as [Ha|[Hb|Hc]]; [by eapply Ha|by eapply Hb|by eapply Hc]. }
  case_decide as Halive.
  - split; [by rewrite <- Hnil|]. intros Hnf. destruct Hnf. by apply Hnil.
  - destruct (py_max_spec system_from alive Halive) as (best & -> & Hin & Hmax).
    split; [split; [done|by intros ?%Hnil]|]. intros _. exists best.
    apply elem_of_exact_alive in Hin as (Hr & Hday & Htm & Hal).
    split_and!; try done.
    intros r ? ? ? ?. by apply Hmax, elem_of_exact_alive.
Qed.

(** The two-step selection shared by the date-only paths: the latest
    valid time first, then the latest [system_from] at that valid time. *)
Lemma latest_version_spec {A} (vt sf : A → datetime) (l : list A) :
  l ≠ [] →
  ∃ max_valid best,
    py_max id (vt <$> l) = Return max_valid
    ∧ py_max sf (filter (λ c, vt c = max_valid) l) = Return best
    ∧ best ∈ l ∧ vt best = max_valid
    ∧ (∀ c, c ∈ l → dt_le (vt c) (vt best))
    ∧ (∀ c, c ∈ l → vt c = vt best → dt_le (sf c) (sf best)).
Proof.
  intros Hl.
  destruct (py_max_spec id (vt <$> l)) as (max_valid & Hmv & Hin & Hmax).
  { by destruct l. }
  apply list_elem_of_fmap in Hin as (c0 & Hc0 & Hc0l).
  destruct (py_max_spec sf (filter (λ c, vt c = max_valid) l))
    as (best & Hbest & Hbin & Hbmax).
  { apply (elem_of_not_nil c0). by apply list_elem_of_filter. }
  apply list_elem_of_filter in Hbin as [Hvt Hbl].
  exists max_valid, best. split_and!; try done.
  - intros c Hc. rewrite Hvt. apply (Hmax (vt c)). by apply list_elem_of_fmap_2.
  - intros c Hc Heq. apply Hbmax, list_elem_of_filter. split; [congruence|done].
Qed.

Lemma morning_before_afternoon a b :
  dt_date a = dt_date b →
  dt_time a = mk_time 8 0 0 0 → dt_time b = mk_time 14 0 0 0 → dt_lt a b.
Proof.
  destruct a, b; unfold dt_date, dt_time; simpl.
  intros [= -> -> ->] [= -> -> -> ->] [= -> -> -> ->].
  unfold dt_lt, _cmp, dt_fields; simpl. by rewrite !Z.compare_refl.
Qed.

Lemma query_value_day_spec (self : TemporalDB) (fname lname loinc : string)
    (date : datetime) (perspective_time : option datetime) :
  let t := default (current_time self) perspective_time in
  day_alive self fname lname loinc date t ≠ [] →
  ∃ best,
    best ∈ records self ∧ on_day fname lname loinc date best
    ∧ _is_alive_at best t
    ∧ (∀ r, r ∈ records self → on_day fname lname loinc date r →
            _is_alive_at r t →
            dt_le (valid_time r) (valid_time best)
            ∧ (valid_time r = valid_time best →
               dt_le (system_from r) (system_from best)))
    ∧ query_value self fname lname loinc date None perspective_time
      = Return (Some (value_result (long_name_of self loinc) best)).
Proof.
  intros t Halive. rewrite query_value_day_unfold. fold t. cbv zeta.
  rewrite decide_False by done.
  destruct (latest_version_spec valid_time system_from _ Halive)
    as (max_valid & best & -> & Hbest & Hin & _ & Hvt & Hsf).
  simpl. rewrite Hbest. simpl.
  apply elem_of_day_alive in Hin as (Hr & Hday & Hal).
  exists best. split_and!; try done.
  intros r ? ? ?. assert (r ∈ day_alive self fname lname loinc date t)
    by by apply elem_of_day_alive.
  split; [by apply Hvt|by apply Hsf].
Qed.

(** C6: without a time, [query_value] looks only at the records of that
    patient, code and day that are alive at the perspective time.  It
    finds nothing exactly when there is none; otherwise it returns a
    record with the greatest [valid_time] among them and, among those
    with that [valid_time], the greatest [system_from]: the answer holds
    the patient, code, value, unit, valid time, [system_from] and
    [system_to] of that record, and the catalog name of the code or the
    code itself.  With an 08:00 and a 14:00 record of the same day, both
    alive, the fields of the 14:00 record are returned. *)
Theorem query_value_date_only (self : TemporalDB) (fname lname loinc : string)
    (date : datetime) (perspective_time : option datetime) :
  let t := default (current_time self) perspective_time in
  let query := query_value self fname lname loinc date None perspective_time in
  let matches r :=
    first_name r = fname ∧ last_name r = lname ∧ loinc_num r = loinc
    ∧ dt_date (valid_time r) = dt_date date in
  let candidate r := r ∈ records self ∧ matches r ∧ _is_alive_at r t in
  let answer r :=
    Return (Some (mk_value_result (first_name r) (last_name r) (loinc_num r)
                    (default loinc (loinc_name self !! loinc))
                    (value r) (unit_ r) (valid_time r)
                    (system_from r) (system_to r))) in
  (query = Return None ↔ ∀ r, ¬ candidate r)
  ∧ ((∃ r, candidate r) →
     ∃ best,
       candidate best
       ∧ (∀ r, candidate r →
               dt_le (valid_time r) (valid_time best)
               ∧ (valid_time r = valid_time best →
                  dt_le (system_from r) (system_from best)))
       ∧ query = answer best)
  ∧ (∀ r8 r14,
       records self ≡ₚ [r8; r14] →
       matches r8 → matches r14 →
       _is_alive_at r8 t → _is_alive_at r14 t →
       dt_time (valid_time r8) = mk_time 8 0 0 0 →
       dt_time (valid_time r14) = mk_time 14 0 0 0 →
       query = answer r14).
Proof.
  intros t query matches candidate answer.
  assert (Hcand : ∀ r, candidate r ↔ r ∈ day_alive self fname lname loinc date t).
  { intros r. by rewrite elem_of_day_alive. }
  assert (Hsome : ∀ r, candidate r →
    ∃ best, candidate best
      ∧ (∀ r, candidate r →
              dt_le (valid_time r) (valid_time best)
              ∧ (valid_time r = valid_time best →
                 dt_le (system_from r) (system_from best)))
      ∧ query = answer best).
  { intros r Hr%Hcand%elem_of_not_nil.
    destruct (query_value_day_spec self fname lname loinc date perspective_time Hr)
      as (best & ? & ? & ? & Hmax & Hq).
    exists best. split_and!; try done. intros r' (? & ? & ?). by apply Hmax. }
  split_and!.
  - split.
    + intros Hq r Hr. destruct (Hsome r Hr) as (best & _ & _ & Hq').
      rewrite Hq in Hq'. done.
    + intros Hnone. subst query. rewrite query_value_day_unfold. fold t. cbv zeta.
      rewrite decide_True; [done|].
      apply elem_of_nil_inv. intros r Hr%Hcand. by apply (Hnone r).
  - intros [r Hr]. by apply (Hsome r).
  - intros r8 r14 Hperm Hd8 Hd14 Ha8 Ha14 Ht8 Ht14.
    assert (Hc8 : candidate r8).
    { split_and!; try done. rewrite Hperm. by left. }
    assert (Hc14 : candidate r14).
    { split_and!; try done. rewrite Hperm. by right; left. }
    destruct (Hsome r8 Hc8) as (best & (Hin & _ & _) & Hmax & ->).
    rewrite Hperm in Hin.
    apply elem_of_cons in Hin as [->|Hin]; [|by apply list_elem_of_singleton in Hin as ->].
    destruct (Hmax r14 Hc14) as [Hle _].
    apply dt_not_le_lt in Hle; [done|].
    apply morning_before_afternoon; [|done..].
    destruct Hd8 as (_ & _ & _ & ->). by destruct Hd14 as (_ & _ & _ & ->).
Qed.

(** ** [query_history] *)

Lemma group_step_lookup groups r k :
  group_step groups r !! k = group_pick k (groups !! k) r.
Proof.
  unfold group_step, group_pick. case_decide as Hk.
  - subst k. destruct (groups !! valid_time r) as [old|] eqn:Hold.
    + case_decide; [by rewrite lookup_insert_eq|done].
    + by rewrite lookup_insert_eq.
  - destruct (groups !! valid_time r) as [old|].
    + case_decide; [by rewrite lookup_insert_ne|done].
    + by rewrite lookup_insert_ne.
Qed.

Lemma foldl_group_lookup l groups k :
  foldl group_step groups l !! k = foldl (group_pick k) (groups !! k) l.
Proof.
  revert groups; induction l as [|r l IH]; intros groups; simpl; [done|].
  by rewrite IH, group_step_lookup.
Qed.

(** At every key the loop keeps what [max] by [system_from] returns on
    the records of that key. *)
Lemma foldl_group_pick_Some k x l :
  foldl (group_pick k) (Some x) l =
  Some (foldl (max_step system_from) x (filter (λ r, valid_time r = k) l)).
Proof.
  revert x; induction l as [|r l IH]; intros x; simpl; [done|].
  unfold group_pick at 2. case_decide as Hk.
  - rewrite filter_cons_True by done. simpl. unfold max_step at 2.
    destruct (decide (dt_lt (system_from x) (system_from r))) as [Hlt|Hlt];
      destruct (decide (dt_gt (system_from r) (system_from x))) as [Hgt|Hgt];
      try apply IH; exfalso; apply dt_gt_lt in Hgt || apply Hgt, dt_gt_lt; done.
  - rewrite filter_cons_False by done. apply IH.
Qed.

Lemma foldl_group_pick_None k l :
  foldl (group_pick k) None l =
  match filter (λ r, valid_time r = k) l with
  | [] => None
  | x :: l' => Some (foldl (max_step system_from) x l')
  end.
Proof.
  induction l as [|r l IH]; simpl; [done|].
  unfold group_pick at 2. case_decide as Hk.
  - rewrite filter_cons_True by done. apply foldl_group_pick_Some.
  - rewrite filter_cons_False by done. apply IH.
Qed.

Lemma groups_lookup_Some l k r :
  foldl group_step ∅ l !! k = Some r →
  r ∈ l ∧ valid_time r = k
  ∧ ∀ r', r' ∈ l → valid_time r' = k → dt_le (system_from r') (system_from r).
Proof.
  rewrite foldl_group_lookup, lookup_empty, foldl_group_pick_None.
  destruct (filter _ l) as [|x l'] eqn:Hf; [done|]. intros [= <-].
  pose proof (foldl_max_elem system_from l' x) as Hin.
  rewrite <- Hf in Hin. apply list_elem_of_filter in Hin as [Hk Hin].
  split_and!; try done. intros r' Hr' Hk'.
  apply foldl_max_ge. rewrite <- Hf. by apply list_elem_of_filter.
Qed.

Lemma groups_lookup_is_Some l r :
  r ∈ l → is_Some (foldl group_step ∅ l !! valid_time r).
Proof.
  intros Hr. rewrite foldl_group_lookup, lookup_empty, foldl_group_pick_None.
  destruct (filter _ l) as [|x l'] eqn:Hf; [|done].
  assert (r ∈ filter (λ r', valid_time r' = valid_time r) l) as Hin
    by by apply list_elem_of_filter.
  rewrite Hf in Hin. by apply not_elem_of_nil in Hin.
Qed.

(** ** Sorting distinct keys *)

Lemma StronglySorted_le_lt (l : list datetime) :
  StronglySorted dt_le l → NoDup l → StronglySorted dt_lt l.
Proof.
  induction 1 as [|x l Hl IH Hx]; intros Hnd; [constructor|].
  apply NoDup_cons in Hnd as [Hnotin Hnd]. constructor; [by apply IH|].
  apply Forall_forall. intros y Hy.
  rewrite Forall_forall in Hx. destruct (proj1 (dt_le_lt_eq x y) (Hx y Hy)) as [?| ->];
    [done|by destruct Hnotin].
Qed.

Lemma sorted_spec (l : list datetime) :
  NoDup l → StronglySorted dt_lt (sorted l) ∧ sorted l ≡ₚ l.
Proof.
  intros Hnd. unfold sorted.
  pose proof (merge_sort_Permutation dt_le l) as Hperm. split; [|done].
  apply StronglySorted_le_lt; [apply StronglySorted_merge_sort; apply _|].
  by rewrite Hperm.
Qed.

(** The result loop never fails on keys of the dictionary. *)
Lemma for_each_dict_get {B} (groups : gmap datetime TemporalRecord)
    (h : TemporalRecord → B) (ks : list datetime) :
  (∀ k, k ∈ ks → is_Some (groups !! k)) →
  ∃ rows,
    for_each (λ vt, rec ← dict_get groups vt; Return (h rec)) ks = Return rows
    ∧ Forall2 (λ k row, ∃ r, groups !! k = Some r ∧ row = h r) ks rows.
Proof.
  induction ks as [|k ks IH]; intros Hks; simpl.
  - exists []. by split.
  - destruct (Hks k) as [r Hr]; [by left|].
    destruct IH as (rows & -> & Hrows); [intros k' ?; apply Hks; by right|].
    exists (h r :: rows). unfold dict_get. rewrite Hr. simpl. split; [done|].
    constructor; [by exists r|done].
Qed.

Lemma history_rows_valid_time l long ks rows :
  Forall2 (λ k row, ∃ r, foldl group_step ∅ l !! k = Some r
                         ∧ row = history_row long r) ks rows →
  h_valid_time <$> rows = ks.
Proof.
  induction 1 as [|k row ks rows (r & Hr & ->) _ IH]; simpl; [done|].
  f_equal; [|done]. by apply groups_lookup_Some in Hr as (_ & ? & _).
Qed.

(** C7: with both transaction bounds given, [query_history] returns one
    row per valid time that occurs among the records of the patient and
    code with [valid_time] in [[valid_from, valid_to]] and [system_from]
    in [[tx_from, tx_to]]; the row holds the valid time, value, unit,
    [system_from] and [system_to] of a record of that valid time with
    the greatest [system_from], closed or not, and the catalog name of
    the code or the code itself; the rows are strictly ascending by
    valid time, so no valid time repeats. *)
Theorem query_history_spec (self : TemporalDB) (fname lname loinc : string)
    (valid_from valid_to tx_from tx_to : datetime) :
  let qualifies r :=
    r ∈ records self
    ∧ (first_name r = fname ∧ last_name r = lname ∧ loinc_num r = loinc
       ∧ dt_le valid_from (valid_time r) ∧ dt_le (valid_time r) valid_to)
    ∧ dt_le tx_from (system_from r) ∧ dt_le (system_from r) tx_to in
  ∃ rows,
    query_history self fname lname loinc valid_from valid_to
      (Some tx_from) (Some tx_to) = Return rows
    ∧ StronglySorted dt_lt (h_valid_time <$> rows)
    ∧ NoDup (h_valid_time <$> rows)
    ∧ (∀ row, row ∈ rows →
         ∃ r, qualifies r
              ∧ row = mk_history_row (valid_time r) (value r) (unit_ r)
                        (system_from r) (system_to r)
                        (default loinc (loinc_name self !! loinc))
              ∧ ∀ r', qualifies r' → valid_time r' = valid_time r →
                      dt_le (system_from r') (system_from r))
    ∧ (∀ r, qualifies r →
         ∃ row, row ∈ rows ∧ h_valid_time row = valid_time r).
Proof.
  intros qualifies. unfold query_history. simpl.
  set (l := filter (in_tx_range tx_from tx_to)
         (filter (in_valid_range fname lname loinc valid_from valid_to)
            (records self))).
  assert (Hl : ∀ r, r ∈ l ↔ qualifies r).
  { intros r. unfold l, qualifies, in_tx_range, in_valid_range.
    rewrite !list_elem_of_filter. tauto. }
  set (groups := foldl group_step ∅ l).
  set (keys := (map_to_list groups).*1).
  assert (Hkeys : ∀ k, k ∈ keys ↔ is_Some (groups !! k)).
  { intros k. unfold keys. rewrite list_elem_of_fmap. split.
    - intros ([k' r] & -> & Hin). apply elem_of_map_to_list in Hin. by exists r.
    - intros [r Hr]. exists (k, r). split; [done|]. by apply elem_of_map_to_list. }
  destruct (sorted_spec keys (NoDup_fst_map_to_list groups)) as [Hsorted Hperm].
  destruct (for_each_dict_get groups (history_row (long_name_of self loinc))
              (sorted keys)) as (rows & Hrows & Hrel).
  { intros k Hk. apply Hkeys. by rewrite <- Hperm. }
  exists rows. pose proof (history_rows_valid_time _ _ _ _ Hrel) as Hvt.
  split_and!; [done|by rewrite Hvt| | |].
  - rewrite Hvt, Hperm. apply NoDup_fst_map_to_list.
  - intros row [i Hi]%list_elem_of_lookup.
    destruct (Forall2_lookup_r _ _ _ _ _ Hrel Hi) as (k & _ & r & Hr & ->).
    apply groups_lookup_Some in Hr as (Hin & Hk & Hmax).
    exists r. split_and!; [by apply Hl|done|].
    intros r' Hr' Heq. apply Hmax; [by apply Hl|congruence].
  - intros r Hr%Hl. pose proof (groups_lookup_is_Some l r Hr) as Hsome.
    apply Hkeys in Hsome. rewrite <- Hperm in Hsome.
    apply list_elem_of_lookup in Hsome as [i Hi].
    destruct (Forall2_lookup_l _ _ _ _ _ Hrel Hi) as (row & Hrow & r0 & Hr0 & ->).
    exists (history_row (long_name_of self loinc) r0).
    split; [by eapply list_elem_of_lookup_2|].
    by apply groups_lookup_Some in Hr0 as (_ & ? & _).
Qed.

Lemma list_filter_iff_elem {A} (P1 P2 : A → Prop)
    `{!∀ x, Decision (P1 x), !∀ x, Decision (P2 x)} (l : list A) :
  (∀ x, x ∈ l → P1 x ↔ P2 x) → filter P1 l = filter P2 l.
Proof.
  induction l as [|x l IH]; intros HP; [done|].
  assert (filter P1 l = filter P2 l) as IH' by (apply IH; intros; apply HP; by right).
  destruct (decide (P1 x)) as [H1|H1].
  - rewrite !filter_cons_True; [by f_equal|by apply HP; [left|]|done].
  - rewrite !filter_cons_False; [done| |done].
    intros H2. apply H1, HP; [by left|done].
Qed.

(** C8, as the code has it: an omitted [tx_from] is 1 January 1900,
    00:00, and an omitted [tx_to] is the current time of the store.  The
    result is that of [datetime.min] as lower bound whenever no record
    of the patient and code in the valid range has a [system_from]
    before 1900. *)
Theorem query_history_defaults (self : TemporalDB) (fname lname loinc : string)
    (valid_from valid_to : datetime) (tx_from tx_to : option datetime) :
  query_history self fname lname loinc valid_from valid_to tx_from tx_to
  = query_history self fname lname loinc valid_from valid_to
      (Some (default (datetime_ymd 1900 1 1) tx_from))
      (Some (default (current_time self) tx_to))
  ∧ ((∀ r, r ∈ records self →
           in_valid_range fname lname loinc valid_from valid_to r →
           dt_le (datetime_ymd 1900 1 1) (system_from r)) →
     query_history self fname lname loinc valid_from valid_to None None
     = query_history self fname lname loinc valid_from valid_to
         (Some datetime_min) (Some (current_time self))).
Proof.
  split; [done|]. intros Hold. unfold query_history. simpl.
  rewrite (list_filter_iff_elem
             (in_tx_range (datetime_ymd 1900 1 1) (current_time self))
             (in_tx_range datetime_min (current_time self))); [done|].
  intros r [Hrange Hr]%list_elem_of_filter. unfold in_tx_range.
  split; intros [_ Hto]; (split; [|done]).
  - etrans; [|by apply Hold]. by vm_compute.
  - by apply Hold.
Qed.

(** C8 fails as stated: a record transacted in 1899 is left out under
    the default lower bound and returned under [datetime.min]. *)
Lemma query_history_default_not_min :
  query_history old_db "John" "Doe" "12345-6"
    (datetime_ymd 1899 1 1) (datetime_ymd 1900 1 1) None None
  ≠ query_history old_db "John" "Doe" "12345-6"
      (datetime_ymd 1899 1 1) (datetime_ymd 1900 1 1)
      (Some datetime_min) (Some (current_time old_db)).
Proof. vm_compute. discriminate. Qed.

(** ** [update_value] and [delete_value] *)

Lemma elem_of_enumerate {A} (l : list A) (c : nat * A) :
  c ∈ enumerate l ↔ l !! c.1 = Some c.2.
Proof.
  unfold enumerate. rewrite elem_of_lookup_imap. split.
  - by intros (i & y & -> & Hi).
  - intros Hc. exists c.1, c.2. by destruct c.
Qed.

Lemma elem_of_enumerate_filter {A} (P : A → Prop) `{!∀ x, Decision (P x)}
    (l : list A) (x : A) :
  x ∈ l → P x → ∃ i, (i, x) ∈ filter (λ c, P c.2) (enumerate l).
Proof.
  intros [i Hi]%list_elem_of_lookup HP. exists i.
  apply list_elem_of_filter. split; [done|]. by apply elem_of_enumerate.
Qed.

Lemma update_value_cases (self : TemporalDB) (fname lname loinc : string)
    (vt : datetime) (new_value : string) (t_update : option datetime) :
  let t := default (current_time self) t_update in
  let result := update_value self fname lname loinc vt new_value t_update in
  (result = Return (self, [[PStr "No record found to update."]])
   ∧ ∀ r, r ∈ records self → ¬ current_at fname lname loinc vt t r)
  ∨ (∃ i current,
       records self !! i = Some current
       ∧ current_at fname lname loinc vt t current
       ∧ (∀ r, r ∈ records self → current_at fname lname loinc vt t r →
               dt_le (system_from r) (system_from current))
       ∧ result =
         Return (mk_db (current_time self)
                   (<[i := set_system_to current t]> (records self)
                      ++ [new_version current new_value t])
                   (loinc_name self),
                 [[PStr "Update done."];
                  [PStr "Old version:"; PRec (set_system_to current t)];
                  [PStr "New version:";
                   PRec (new_version current new_value t)]])).
Proof.
  intros t result. subst result. unfold update_value. fold t. cbv zeta.
  set (candidates := filter _ (enumerate (records self))).
  case_decide as Hcand.
  - left. split; [done|]. intros r Hr Hm.
    destruct (elem_of_enumerate_filter
                (current_at fname lname loinc vt t) _ r Hr Hm) as [i Hi].
    fold candidates in Hi. rewrite Hcand in Hi. by apply not_elem_of_nil in Hi.
  - right.
    destruct (py_max_spec (λ c, system_from c.2) candidates Hcand)
      as ([i current] & -> & Hin & Hmax).
    apply list_elem_of_filter in Hin as [Hm Hin].
    apply elem_of_enumerate in Hin. simpl in *.
    exists i, current. split_and!; try done.
    intros r Hr Hr'.
    destruct (elem_of_enumerate_filter
                (current_at fname lname loinc vt t) _ r Hr Hr') as [j Hj].
    apply (Hmax (j, r) Hj).
Qed.

Lemma close_latest_spec (self : TemporalDB) (t : datetime)
    (candidates : list (nat * TemporalRecord)) i target :
  py_max (λ c, system_from c.2) candidates = Return (i, target) →
  close_latest self t candidates =
  Return (mk_db (current_time self)
            (<[i := set_system_to target t]> (records self)) (loinc_name self),
          [[PStr "Logical delete done. Record closed at:"; PTime t];
           [PRec (set_system_to target t)]]).
Proof. unfold close_latest. by intros ->. Qed.

Lemma delete_value_cases (self : TemporalDB) (fname lname loinc : string)
    (date : datetime) (time : option time) (t_delete : option datetime) :
  let t := default (current_time self) t_delete in
  let result := delete_value self fname lname loinc date time t_delete in
  (∃ msg, result = Return (self, [[PStr msg]])
          ∧ ∀ r, r ∈ records self → on_day_at fname lname loinc date t r →
                 ¬ at_time time r)
  ∨ (∃ i target,
       records self !! i = Some target
       ∧ delete_target fname lname loinc date time t (records self) target
       ∧ result =
         Return (mk_db (current_time self)
                   (<[i := set_system_to target t]> (records self))
                   (loinc_name self),
                 [[PStr "Logical delete done. Record closed at:"; PTime t];
                  [PRec (set_system_to target t)]])).
Proof.
  intros t result. subst result. unfold delete_value. fold t. cbv zeta.
  set (candidates := filter _ (enumerate (records self))).
  assert (Hall : ∀ r, r ∈ records self → on_day_at fname lname loinc date t r →
                      ∃ j, (j, r) ∈ candidates).
  { intros r Hr Hd.
    apply (elem_of_enumerate_filter (on_day_at fname lname loinc date t) _ r Hr Hd). }
  case_decide as Hcand.
  { left. eexists. split; [done|]. intros r Hr Hd _.
    destruct (Hall r Hr Hd) as [j Hj]. rewrite Hcand in Hj.
    by apply not_elem_of_nil in Hj. }
  destruct time as [tm|].
  - case_decide as Hsame.
    { left. eexists. split; [done|]. intros r Hr Hd Htm.
      destruct (Hall r Hr Hd) as [j Hj].
      assert ((j, r) ∈ filter (λ c : nat * TemporalRecord,
                 dt_time (valid_time c.2) = tm) candidates) as Hin
        by by apply list_elem_of_filter.
      rewrite Hsame in Hin. by apply not_elem_of_nil in Hin. }
    right.
    destruct (py_max_spec (λ c, system_from c.2) _ Hsame)
      as ([i target] & Hbest & Hin & Hmax).
    rewrite (close_latest_spec _ _ _ _ _ Hbest).
    apply list_elem_of_filter in Hin as [Htm Hin].
    apply list_elem_of_filter in Hin as [Hd Hin].
    apply elem_of_enumerate in Hin. simpl in *.
    exists i, target. split_and!; try done.
    split_and!; try done. intros r Hr Hd' Htm'.
    destruct (Hall r Hr Hd') as [j Hj].
    apply (Hmax (j, r)). by apply list_elem_of_filter.
  - right.
    destruct (latest_version_spec (λ c : nat * TemporalRecord, valid_time c.2)
                (λ c, system_from c.2) candidates Hcand)
      as (max_valid & [i target] & -> & Hbest & Hin & _ & Hvt & Hsf).
    simpl. rewrite (close_latest_spec _ _ _ _ _ Hbest).
    apply list_elem_of_filter in Hin as [Hd Hin].
    apply elem_of_enumerate in Hin. simpl in *.
    exists i, target. split_and!; try done.
    split_and!; try done. intros r Hr Hd' _.
    destruct (Hall r Hr Hd') as [j Hj].
    split; [apply (Hvt (j, r) Hj)|apply (Hsf (j, r) Hj)].
Qed.

(** C3: [update_value] looks at the records of the given patient, code
    and exact valid time that are alive at the update time.  Without
    such a record it reports that nothing was found and returns the
    store as it was.  Otherwise it picks one with the greatest
    [system_from]; in the new store that record has its [system_to] set
    to the update time and all other fields as before, and one record is
    appended with the same patient, code, valid time and unit, the new
    value, [system_from] the update time and no [system_to]; the clock,
    the catalog and all other records stay. *)
Theorem update_value_spec (self : TemporalDB) (fname lname loinc : string)
    (vt : datetime) (new_value : string) (t_update : option datetime) :
  let t := default (current_time self) t_update in
  let result := update_value self fname lname loinc vt new_value t_update in
  let matching r :=
    first_name r = fname ∧ last_name r = lname ∧ loinc_num r = loinc
    ∧ valid_time r = vt ∧ _is_alive_at r t = true in
  ((∀ r, r ∈ records self → ¬ matching r) →
     result = Return (self, [[PStr "No record found to update."]]))
  ∧ ((∃ r, r ∈ records self ∧ matching r) →
     ∃ i current out,
       records self !! i = Some current ∧ matching current
       ∧ (∀ r, r ∈ records self → matching r →
               dt_le (system_from r) (system_from current))
       ∧ result =
         Return (mk_db (current_time self)
                   (<[i := mk_record (first_name current) (last_name current)
                            (loinc_num current) (value current)
                            (unit_ current) (valid_time current)
                            (system_from current) (Some t)]> (records self)
                      ++ [mk_record (first_name current) (last_name current)
                            (loinc_num current) new_value (unit_ current)
                            (valid_time current) t None])
                   (loinc_name self),
                 out)).
Proof.
  intros t result matching.
  assert (Hmatching : ∀ r, matching r ↔ current_at fname lname loinc vt t r).
  { intros r. unfold matching, current_at. by rewrite Is_true_true. }
  destruct (update_value_cases self fname lname loinc vt new_value t_update)
    as [[Hres Hnone]|(i & current & Hi & Hm & Hmax & Hres)].
  - split; [done|]. intros (r & Hr & Hm%Hmatching). by destruct (Hnone r Hr).
  - split.
    + intros Hnone. destruct (Hnone current); [|by apply Hmatching].
      by eapply list_elem_of_lookup_2.
    + intros _. exists i, current. eexists.
      split_and!; [done|by apply Hmatching| |exact Hres].
      intros r Hr Hm'%Hmatching. by apply Hmax.
Qed.


(** ** Sequences of mutations *)

Lemma apply_mutation_closes (self : TemporalDB) (op : mutation) :
  ∃ self' out,
    apply_mutation self op = Return (self', out)
    ∧ current_time self' = current_time self
    ∧ closes_at (mutation_time self op) (records self) (records self').
Proof.
  destruct op as [fname lname loinc vt new_value t|fname lname loinc date time t];
    simpl.
  - destruct (update_value_cases self fname lname loinc vt new_value t)
      as [[-> _]|(i & current & Hi & Hm & _ & ->)].
    + eexists _, _. split_and!; [done..|by left].
    + eexists _, _. split_and!; [done..|]. right. simpl.
      exists i, current, [new_version current new_value
                            (default (current_time self) t)].
      split_and!; [done|by destruct Hm as (_ & _ & _ & _ & ?)|done|].
      right. by eexists.
  - destruct (delete_value_cases self fname lname loinc date time t)
      as [(msg & -> & _)|(i & target & Hi & Htarget & ->)].
    + eexists _, _. split_and!; [done..|by left].
    + eexists _, _. split_and!; [done..|]. right. simpl.
      exists i, target, []. rewrite app_nil_r.
      split_and!; [done| |done|by left].
      by destruct Htarget as ((_ & _ & _ & _ & ?) & _).
Qed.

Lemma mutation_time_clock (self self' : TemporalDB) (op : mutation) :
  current_time self' = current_time self →
  mutation_time self' op = mutation_time self op.
Proof. intros Hclock. destruct op; simpl; by rewrite Hclock. Qed.

(** Where a record of the new list comes from. *)
Lemma closes_lookup (l tail : list TemporalRecord) i target t j r :
  l !! i = Some target →
  (<[i := set_system_to target t]> l ++ tail) !! j = Some r →
  (j ≠ i ∧ l !! j = Some r)
  ∨ (j = i ∧ r = set_system_to target t)
  ∨ (length l ≤ j ∧ tail !! (j - length l) = Some r).
Proof.
  intros Hi Hj. destruct (decide (j < length l)) as [Hlt|Hge].
  - rewrite lookup_app_l in Hj by by rewrite length_insert.
    apply list_lookup_insert_Some in Hj as [(-> & <- & _)|[? ?]]; auto.
  - rewrite lookup_app_r, length_insert in Hj by (rewrite length_insert; lia).
    right; right. split; [lia|done].
Qed.

Lemma closes_lookup_open (l tail : list TemporalRecord) i target t j r :
  l !! i = Some target →
  (tail = [] ∨ ∃ v, tail = [new_version target v t]) →
  (<[i := set_system_to target t]> l ++ tail) !! j = Some r →
  system_to r = None →
  (j ≠ i ∧ l !! j = Some r)
  ∨ (j = length l ∧ ∃ v, r = new_version target v t).
Proof.
  intros Hi Htail Hj Hopen.
  destruct (closes_lookup _ _ _ _ _ _ _ Hi Hj) as [?|[[_ ->]|[Hlen Hr]]];
    [by left|done|].
  destruct Htail as [->|[v ->]]; [done|].
  apply list_lookup_singleton_Some in Hr as [Hz <-].
  right. split; [lia|by exists v].
Qed.

Lemma closes_at_one_open t l l' :
  closed_by t l → at_most_one_open l → closes_at t l l' → at_most_one_open l'.
Proof.
  intros Hclosed Hinv [->|(i & target & tail & Hi & Hal & -> & Htail)]; [done|].
  assert (system_to target = None) as Hopen.
  { apply (alive_open _ t Hal). intros st. apply Hclosed.
    by eapply list_elem_of_lookup_2. }
  intros j k rj rk Hj Hk Hkey Hoj Hok.
  destruct (closes_lookup_open _ _ _ _ _ _ _ Hi Htail Hj Hoj)
    as [[Hji Hj']|[-> [vj ->]]];
  destruct (closes_lookup_open _ _ _ _ _ _ _ Hi Htail Hk Hok)
    as [[Hki Hk']|[-> [vk ->]]]; try done.
  - by apply (Hinv j k rj rk).
  - destruct Hji. by apply (Hinv j i rj target).
  - destruct Hki. apply (Hinv k i rk target); try done.
    destruct Hkey as (? & ? & ? & ?). by split_and!.
Qed.

Lemma closes_at_closed_by t t' l l' :
  closes_at t l l' → closed_by t' l → dt_le t t' → closed_by t' l'.
Proof.
  intros [->|(i & target & tail & Hi & Hal & -> & Htail)] Hclosed Hle; [done|].
  intros r st [j Hj]%list_elem_of_lookup Hst.
  destruct (closes_lookup _ _ _ _ _ _ _ Hi Hj) as [[_ Hr]|[[_ ->]|[_ Hr]]].
  - apply (Hclosed r); [by eapply list_elem_of_lookup_2|done].
  - by injection Hst as <-.
  - destruct Htail as [->|[v ->]]; [done|].
    by apply list_lookup_singleton_Some in Hr as [_ <-].
Qed.

Lemma closes_at_frame t l l' i r :
  closes_at t l l' → l !! i = Some r →
  ∃ r', l' !! i = Some r' ∧ same_version r r'
        ∧ (system_to r' = system_to r
           ∨ (_is_alive_at r t ∧ system_to r' = Some t)).
Proof.
  intros [->|(k & target & tail & Hk & Hal & -> & _)] Hi.
  { exists r. split_and!; [done|by repeat split|by left]. }
  pose proof (lookup_lt_Some _ _ _ Hi) as Hlt.
  destruct (decide (i = k)) as [->|Hne].
  - assert (target = r) as -> by congruence.
    exists (set_system_to r t). split_and!; [|by repeat split|by right].
    rewrite lookup_app_l by by rewrite length_insert.
    by apply list_lookup_insert_eq.
  - exists r. split_and!; [|by repeat split|by left].
    rewrite lookup_app_l by by rewrite length_insert.
    by rewrite list_lookup_insert_ne.
Qed.

Lemma same_version_trans r1 r2 r3 :
  same_version r1 r2 → same_version r2 r3 → same_version r1 r3.
Proof.
  intros (? & ? & ? & ? & ? & ? & ?) (? & ? & ? & ? & ? & ? & ?).
  repeat split; congruence.
Qed.

Lemma chronological_cons (self self' : TemporalDB) op ops :
  chronological self (op :: ops) →
  current_time self' = current_time self →
  closes_at (mutation_time self op) (records self) (records self') →
  closed_by (mutation_time self op) (records self) ∧ chronological self' ops.
Proof.
  intros [Hsorted Hall] Hclock Hstep. simpl in Hsorted.
  apply StronglySorted_inv in Hsorted as [Hsorted Hhd].
  apply Forall_cons in Hall as [Hop Hall]. split; [done|].
  rewrite Forall_fmap in Hhd.
  assert (mutation_time self' <$> ops = mutation_time self <$> ops) as Htimes.
  { apply list_fmap_ext. intros _ op' _. by apply mutation_time_clock. }
  split; [by rewrite Htimes|].
  rewrite Forall_forall in Hall, Hhd. apply Forall_forall. intros op' Hop'.
  rewrite (mutation_time_clock self self') by done.
  eapply closes_at_closed_by; [done|by apply Hall|by apply Hhd].
Qed.

(** A run never raises; it keeps the clock and every record in its
    place; along a chronological run closed records stay as they are
    and the one-open-version invariant is kept. *)
Lemma run_spec (self : TemporalDB) (ops : list mutation) :
  ∃ self',
    run self ops = Return self'
    ∧ (∀ i r, records self !! i = Some r →
         ∃ r', records self' !! i = Some r' ∧ same_version r r'
               ∧ (chronological self ops →
                  ∀ st, system_to r = Some st → system_to r' = Some st))
    ∧ (chronological self ops →
       at_most_one_open (records self) → at_most_one_open (records self')).
Proof.
  revert self; induction ops as [|op ops IH]; intros self; simpl.
  { exists self. split_and!; [done| |done].
    intros i r Hi. exists r. split_and!; [done|by repeat split|done]. }
  destruct (apply_mutation_closes self op) as (self1 & out & -> & Hclock & Hstep).
  simpl. destruct (IH self1) as (self' & -> & Hframe & Hinv).
  exists self'. split_and!; [done| |].
  - intros i r Hi.
    destruct (closes_at_frame _ _ _ _ _ Hstep Hi) as (r1 & Hi1 & Hv1 & Hto1).
    destruct (Hframe i r1 Hi1) as (r' & Hi' & Hv' & Hto').
    exists r'. split_and!; [done|by eapply same_version_trans|].
    intros Hchron st Hst.
    destruct (chronological_cons _ _ _ _ Hchron Hclock Hstep) as [Hclosed Hchron'].
    apply Hto'; [done|].
    destruct Hto1 as [->|[Hal _]]; [done|].
    assert (system_to r = None) as Hopen; [|congruence].
    apply (alive_open _ _ Hal). intros st'. apply Hclosed.
    by eapply list_elem_of_lookup_2.
  - intros Hchron Hone.
    destruct (chronological_cons _ _ _ _ Hchron Hclock Hstep) as [Hclosed Hchron'].
    apply Hinv; [done|]. by eapply closes_at_one_open.
Qed.

Lemma at_most_one_open_singleton r : at_most_one_open [r].
Proof. intros [|i] [|j] ri rj Hi Hj; by simpl in *. Qed.

Lemma closed_by_open t l :
  Forall (λ r, system_to r = None) l → closed_by t l.
Proof.
  rewrite Forall_forall. intros Hopen r st Hr Hst.
  rewrite (Hopen r Hr) in Hst. done.
Qed.

(** C2, as the code has it: a store in which no key has two open
    versions stays so along every sequence of [update_value] and
    [delete_value] calls whose transaction times are in order and not
    earlier than a [system_to] already in the store; the calls never
    raise. *)
Theorem one_open_version_kept (self : TemporalDB) (ops : list mutation) :
  at_most_one_open (records self) → chronological self ops →
  ∃ self', run self ops = Return self' ∧ at_most_one_open (records self').
Proof.
  intros Hone Hchron. destruct (run_spec self ops) as (self' & Hrun & _ & Hinv).
  exists self'. split; [done|]. by apply Hinv.
Qed.

Lemma one_open_version_kept_witness :
  ∃ self', run john_db ordered_mutations = Return self'
           ∧ at_most_one_open (records self').
Proof.
  apply (one_open_version_kept john_db ordered_mutations).
  - apply at_most_one_open_singleton.
  - split.
    + repeat constructor; by vm_compute.
    + repeat constructor; apply closed_by_open; by repeat constructor.
Defined.

(** C2 fails as stated: after a correction at 20 January and a second
    one back-dated to 15 January the key has two open versions. *)
Lemma backdated_update_two_open :
  at_most_one_open (records john_db)
  ∧ ∃ self', run john_db backdated_updates = Return self'
             ∧ ¬ at_most_one_open (records self').
Proof.
  split; [apply at_most_one_open_singleton|].
  eexists. split; [by vm_compute|]. intros Hone.
  by specialize (Hone 1 2 _ _ eq_refl eq_refl
                   (conj eq_refl (conj eq_refl (conj eq_refl eq_refl)))
                   eq_refl eq_refl).
Qed.

Lemma run_app (self : TemporalDB) (ops1 ops2 : list mutation) :
  run self (ops1 ++ ops2) = self1 ← run self ops1; run self1 ops2.
Proof.
  revert self; induction ops1 as [|op ops1 IH]; intros self; simpl; [done|].
  destruct (apply_mutation self op) as [[self1 out]|e]; simpl; [apply IH|done].
Qed.

(** The calls that follow a first part of a chronological sequence are
    chronological for the store that the first part leaves. *)
Lemma chronological_app (self self1 : TemporalDB) (ops1 ops2 : list mutation) :
  chronological self (ops1 ++ ops2) → run self ops1 = Return self1 →
  chronological self1 ops2.
Proof.
  revert self; induction ops1 as [|op ops1 IH]; intros self Hchron Hrun.
  { simpl in Hrun. by injection Hrun as <-. }
  destruct (apply_mutation_closes self op) as (s & out & Hop & Hclock & Hstep).
  simpl in Hrun. rewrite Hop in Hrun. simpl in Hrun.
  destruct (chronological_cons self s op (ops1 ++ ops2) Hchron Hclock Hstep)
    as [_ Hchron'].
  by apply (IH s).
Qed.

(** C4, as the code has it: along every sequence of [update_value] and
    [delete_value] calls each record keeps its place and all its fields
    other than [system_to], in particular [system_from]; when the
    transaction times of the calls are in order and not earlier than a
    [system_to] already in the store, a [system_to] that is set, before
    the sequence or by one of its calls, is never written again by the
    calls that follow. *)
Theorem system_times_written_once (self : TemporalDB)
    (before after : list mutation) :
  ∃ self1 self2,
    run self before = Return self1
    ∧ run self1 after = Return self2
    ∧ run self (before ++ after) = Return self2
    ∧ ∀ i r, records self1 !! i = Some r →
        ∃ r', records self2 !! i = Some r'
              ∧ first_name r' = first_name r ∧ last_name r' = last_name r
              ∧ loinc_num r' = loinc_num r ∧ value r' = value r
              ∧ unit_ r' = unit_ r ∧ valid_time r' = valid_time r
              ∧ system_from r' = system_from r
              ∧ (chronological self (before ++ after) →
                 ∀ st, system_to r = Some st → system_to r' = Some st).
Proof.
  destruct (run_spec self before) as (self1 & Hrun1 & _ & _).
  destruct (run_spec self1 after) as (self2 & Hrun2 & Hframe & _).
  exists self1, self2. split_and!; [done|done| |].
  { rewrite run_app, Hrun1. exact Hrun2. }
  intros i r Hi.
  destruct (Hframe i r Hi) as (r' & Hi' & Hv & Hto).
  exists r'. destruct Hv as (? & ? & ? & ? & ? & ? & ?). split_and!; try done.
  intros Hchron. apply Hto. by eapply chronological_app.
Qed.

(** C4 fails as stated: a record closed on 1 February is closed again,
    at 15 January, by a back-dated deletion. *)
Lemma backdated_delete_rewrites_system_to :
  ∃ self1 self2 r1 r2,
    run john_db [delete_february] = Return self1
    ∧ run self1 [delete_january] = Return self2
    ∧ records self1 !! 0 = Some r1 ∧ records self2 !! 0 = Some r2
    ∧ system_to r1 = Some (dt 2024 2 1 0 0)
    ∧ system_to r2 = Some (dt 2024 1 15 0 0).
Proof. eexists _, _, _, _. split_and!; by vm_compute. Qed.

(** C10: [query_value] and [delete_value] use their [date] argument
    through its calendar day only: two arguments of the same day give
    the same result, the same store and the same output. *)
Theorem date_argument_day_only (self : TemporalDB) (fname lname loinc : string)
    (date1 date2 : datetime) (time : option time) (t : option datetime) :
  dt_date date1 = dt_date date2 →
  query_value self fname lname loinc date1 time t
  = query_value self fname lname loinc date2 time t
  ∧ delete_value self fname lname loinc date1 time t
    = delete_value self fname lname loinc date2 time t.
Proof.
  intros Hday. split.
  - unfold query_value.
    by rewrite (list_filter_iff (on_day fname lname loinc date1)
                  (on_day fname lname loinc date2))
      by (intros r; unfold on_day; by rewrite Hday).
  - unfold delete_value.
    by rewrite (list_filter_iff
                  (λ c : nat * TemporalRecord, on_day_at fname lname loinc date1
                                  (default (current_time self) t) c.2)
                  (λ c, on_day_at fname lname loinc date2
                          (default (current_time self) t) c.2))
      by (intros c; unfold on_day_at; by rewrite Hday).
Qed.

Lemma date_argument_day_only_witness :
  query_value john_db "John" "Doe" "12345-6" (dt 2024 1 1 0 0) None None
  = query_value john_db "John" "Doe" "12345-6" (dt 2024 1 1 18 30) None None
  ∧ delete_value john_db "John" "Doe" "12345-6" (dt 2024 1 1 0 0) None None
    = delete_value john_db "John" "Doe" "12345-6" (dt 2024 1 1 18 30) None None.
Proof. apply (date_argument_day_only john_db); reflexivity. Defined.

(** ** The statements on the example stores *)

Lemma update_value_spec_witness :
  ∃ i current out,
    records john_db !! i = Some current
    ∧ (first_name current = "John" ∧ last_name current = "Doe"
       ∧ loinc_num current = "12345-6"
       ∧ valid_time current = dt 2024 1 1 10 0
       ∧ _is_alive_at current (dt 2024 1 15 0 0) = true)
    ∧ (∀ r, r ∈ records john_db →
            first_name r = "John" ∧ last_name r = "Doe"
            ∧ loinc_num r = "12345-6" ∧ valid_time r = dt 2024 1 1 10 0
            ∧ _is_alive_at r (dt 2024 1 15 0 0) = true →
            dt_le (system_from r) (system_from current))
    ∧ update_value john_db "John" "Doe" "12345-6" (dt 2024 1 1 10 0) "7"
        (Some (dt 2024 1 15 0 0)) =
      Return (mk_db (current_time john_db)
                (<[i := mk_record (first_name current) (last_name current)
                         (loinc_num current) (value current) (unit_ current)
                         (valid_time current) (system_from current)
                         (Some (dt 2024 1 15 0 0))]>
                   (records john_db)
                   ++ [mk_record (first_name current) (last_name current)
                         (loinc_num current) "7" (unit_ current)
                         (valid_time current) (dt 2024 1 15 0 0) None])
                (loinc_name john_db),
              out).
Proof.
  apply (proj2 (update_value_spec john_db "John" "Doe" "12345-6"
                  (dt 2024 1 1 10 0) "7" (Some (dt 2024 1 15 0 0)))).
  exists john_record. split; [by left|]. by vm_compute.
Defined.

Lemma system_times_written_once_witness :
  ∃ self1 self2 r r',
    run john_db [Update "John" "Doe" "12345-6" (dt 2024 1 1 10 0) "7"
                   (Some (dt 2024 1 15 0 0))] = Return self1
    ∧ run john_db ordered_mutations = Return self2
    ∧ records john_db !! 0 = Some john_record
    ∧ system_to john_record = None
    ∧ records self1 !! 0 = Some r
    ∧ system_to r = Some (dt 2024 1 15 0 0)
    ∧ records self2 !! 0 = Some r'
    ∧ system_from r' = dt 2024 1 1 10 5
    ∧ system_to r' = Some (dt 2024 1 15 0 0).
Proof.
  destruct (system_times_written_once john_db
              [Update "John" "Doe" "12345-6" (dt 2024 1 1 10 0) "7"
                 (Some (dt 2024 1 15 0 0))]
              [Delete "John" "Doe" "12345-6" (dt 2024 1 1 0 0) None
                 (Some (dt 2024 1 20 0 0))])
    as (self1 & self2 & Hrun1 & _ & Hrun & Hframe).
  assert (records self1 !! 0
          = Some (set_system_to john_record (dt 2024 1 15 0 0))) as Hclosed.
  { assert (run john_db
              [Update "John" "Doe" "12345-6" (dt 2024 1 1 10 0) "7"
                 (Some (dt 2024 1 15 0 0))]
            = Return (mk_db (current_time john_db)
                        [set_system_to john_record (dt 2024 1 15 0 0);
                         new_version john_record "7" (dt 2024 1 15 0 0)]
                        (loinc_name john_db))) as Hrun1' by by vm_compute.
    rewrite Hrun1 in Hrun1'. by injection Hrun1' as ->. }
  destruct (Hframe 0 _ Hclosed)
    as (r' & Hr' & _ & _ & _ & _ & _ & _ & Hfrom & Hto).
  exists self1, self2, (set_system_to john_record (dt 2024 1 15 0 0)), r'.
  split_and!; [exact Hrun1|exact Hrun|reflexivity|reflexivity|exact Hclosed
              |reflexivity|exact Hr'|exact Hfrom|].
  apply Hto; [|reflexivity].
  split.
  - repeat constructor; by vm_compute.
  - repeat constructor; apply closed_by_open; by repeat constructor.
Defined.

Lemma query_value_exact_time_witness :
  ∃ best,
    best ∈ records john_db
    ∧ (first_name best = "John" ∧ last_name best = "Doe"
       ∧ loinc_num best = "12345-6"
       ∧ dt_date (valid_time best) = dt_date (dt 2024 1 1 0 0))
    ∧ dt_time (valid_time best) = mk_time 10 0 0 0
    ∧ _is_alive_at best (dt 2024 6 1 0 0)
    ∧ (∀ r, r ∈ records john_db →
            first_name r = "John" ∧ last_name r = "Doe"
            ∧ loinc_num r = "12345-6"
            ∧ dt_date (valid_time r) = dt_date (dt 2024 1 1 0 0) →
            dt_time (valid_time r) = mk_time 10 0 0 0 →
            _is_alive_at r (dt 2024 6 1 0 0) →
            dt_le (system_from r) (system_from best))
    ∧ query_value john_db "John" "Doe" "12345-6" (dt 2024 1 1 0 0)
        (Some (mk_time 10 0 0 0)) (Some (dt 2024 6 1 0 0))
      = Return (Some (mk_value_result (first_name best) (last_name best)
                        (loinc_num best)
                        (default "12345-6" (loinc_name john_db !! "12345-6"))
                        (value best) (unit_ best) (valid_time best)
                        (system_from best) (system_to best))).
Proof.
  apply (proj2 (query_value_exact_time john_db "John" "Doe" "12345-6"
                  (dt 2024 1 1 0 0) (mk_time 10 0 0 0)
                  (Some (dt 2024 6 1 0 0)))).
  assert (john_record ∈ records john_db) as Hin by by left.
  intros [Ha|[Hb|Hc]].
  - by apply (Ha john_record Hin).
  - by apply (Hb john_record Hin).
  - by apply (Hc john_record Hin).
Defined.

Lemma query_value_date_only_witness :
  query_value day_db "John" "Doe" "12345-6" (dt 2024 1 1 0 0) None None
  = Return (Some (mk_value_result "John" "Doe" "12345-6" "12345-6" "6" "mg"
                    (dt 2024 1 1 14 0) (dt 2024 1 1 14 5) None)).
Proof.
  apply (proj2 (proj2 (query_value_date_only day_db "John" "Doe" "12345-6"
                         (dt 2024 1 1 0 0) None))
           morning_record afternoon_record); by vm_compute.
Defined.


Lemma query_history_defaults_witness :
  query_history john_db "John" "Doe" "12345-6"
    (dt 2024 1 1 0 0) (dt 2024 1 2 0 0) None None
  = query_history john_db "John" "Doe" "12345-6"
      (dt 2024 1 1 0 0) (dt 2024 1 2 0 0)
      (Some datetime_min) (Some (current_time john_db)).
Proof.
  apply (proj2 (query_history_defaults john_db "John" "Doe" "12345-6"
                  (dt 2024 1 1 0 0) (dt 2024 1 2 0 0) None None)).
  intros r Hr _. apply list_elem_of_singleton in Hr as ->. by vm_compute.
Defined.

(** * Further properties of the store *)

(** ** The clock *)


(** ** [query_history]: the empty answer *)

Lemma query_history_rows (self : TemporalDB) (fname lname loinc : string)
    (valid_from valid_to tx_from tx_to : datetime) :
  let l := filter (in_tx_range tx_from tx_to)
             (filter (in_valid_range fname lname loinc valid_from valid_to)
                (records self)) in
  let groups := foldl group_step ∅ l in
  ∃ rows,
    query_history self fname lname loinc valid_from valid_to
      (Some tx_from) (Some tx_to) = Return rows
    ∧ Forall2 (λ k row, ∃ r, groups !! k = Some r
                             ∧ row = history_row (long_name_of self loinc) r)
        (sorted (map_to_list groups).*1) rows.
Proof.
  intros l groups. unfold query_history. simpl. fold l. fold groups.
  apply for_each_dict_get. intros k Hk.
  destruct (sorted_spec _ (NoDup_fst_map_to_list groups)) as [_ Hperm].
  rewrite Hperm in Hk. apply list_elem_of_fmap in Hk as ([k' r] & -> & Hin).
  apply elem_of_map_to_list in Hin. by exists r.
Qed.

(** X2: [query_history] returns the empty list, and no error, exactly when
    no record of the patient and code lies in both ranges; so it does
    whenever a range is given with its bounds in the wrong order. *)
Theorem query_history_empty (self : TemporalDB) (fname lname loinc : string)
    (valid_from valid_to tx_from tx_to : datetime) :
  let query :=
    query_history self fname lname loinc valid_from valid_to
      (Some tx_from) (Some tx_to) in
  (query = Return [] ↔
   ∀ r, ¬ in_history self fname lname loinc valid_from valid_to tx_from tx_to r)
  ∧ (dt_lt valid_to valid_from ∨ dt_lt tx_to tx_from → query = Return []).
Proof.
  intros query.
  assert (Hiff : query = Return [] ↔
    ∀ r, ¬ in_history self fname lname loinc valid_from valid_to tx_from tx_to r).
  { subst query.
    destruct (query_history_rows self fname lname loinc valid_from valid_to
                tx_from tx_to) as (rows & -> & Hrel).
    set (l := filter (in_tx_range tx_from tx_to) _) in Hrel.
    set (groups := foldl group_step ∅ l) in Hrel.
    destruct (sorted_spec _ (NoDup_fst_map_to_list groups)) as [_ Hperm].
    assert (Hl : ∀ r, r ∈ l ↔
      in_history self fname lname loinc valid_from valid_to tx_from tx_to r).
    { intros r. unfold l, in_history. rewrite !list_elem_of_filter. tauto. }
    split.
    - intros [= ->] r Hr%Hl. apply Forall2_nil_inv_r in Hrel.
      pose proof (groups_lookup_is_Some l r Hr) as [r0 Hr0].
      assert (valid_time r ∈ (map_to_list groups).*1) as Hin.
      { apply list_elem_of_fmap. exists (valid_time r, r0).
        split; [done|]. by apply elem_of_map_to_list. }
      rewrite <- Hperm, Hrel in Hin. by apply not_elem_of_nil in Hin.
    - intros Hnone. assert (l = []) as Hnil.
      { apply elem_of_nil_inv. intros r Hr%Hl. by apply (Hnone r). }
      unfold groups in Hrel. rewrite Hnil in Hrel. simpl in Hrel.
      rewrite map_to_list_empty in Hrel. by apply Forall2_nil_inv_l in Hrel as ->. }
  split; [done|]. intros Hwrong. apply Hiff.
  intros r (_ & (_ & _ & _ & Hfrom & Hto) & Htx_from & Htx_to).
  destruct Hwrong as [Hlt|Hlt]; apply dt_not_le_lt in Hlt; apply Hlt; by etrans.
Qed.

(** ** What mutations leave alone *)

Lemma apply_mutation_frame (self : TemporalDB) (op : mutation) :
  ∃ self' out,
    apply_mutation self op = Return (self', out)
    ∧ current_time self' = current_time self
    ∧ loinc_name self' = loinc_name self
    ∧ length (records self) ≤ length (records self')
    ∧ length (records self') ≤ length (records self) + updates [op].
Proof.
  destruct op as [fname lname loinc vt new_value t|fname lname loinc date time t];
    simpl.
  - destruct (update_value_cases self fname lname loinc vt new_value t)
      as [[-> _]|(i & current & _ & _ & _ & ->)];
      eexists _, _; (split; [done|]); simpl; split_and!; try done; try lia;
      rewrite length_app, length_insert; simpl; lia.
  - destruct (delete_value_cases self fname lname loinc date time t)
      as [(msg & -> & _)|(i & target & _ & _ & ->)];
      eexists _, _; (split; [done|]); simpl; split_and!; try done; try lia;
      rewrite length_insert; lia.
Qed.

(** X3: A sequence of [update_value] and [delete_value] calls never raises,
    never changes the clock or the catalog and never removes a record;
    the store grows by at most one record per [update_value] call. *)
Theorem run_frame (self : TemporalDB) (ops : list mutation) :
  ∃ self',
    run self ops = Return self'
    ∧ current_time self' = current_time self
    ∧ loinc_name self' = loinc_name self
    ∧ length (records self) ≤ length (records self')
    ∧ length (records self') ≤ length (records self) + updates ops.
Proof.
  revert self; induction ops as [|op ops IH]; intros self.
  { exists self. simpl. split_and!; try done; lia. }
  destruct (apply_mutation_frame self op)
    as (self1 & out & Hop & Hclock & Hnames & Hge & Hle).
  destruct (IH self1) as (self' & Hrun & Hclock' & Hnames' & Hge' & Hle').
  exists self'. simpl. rewrite Hop. simpl. split; [done|].
  split_and!; try congruence; try lia.
  simpl in Hle. destruct op; simpl; lia.
Qed.

(** ** Ties on [system_from] *)

Section first_max.
Context {A : Type} (key : A → datetime).

(** [max] returns the first of the elements with the greatest key. *)
Lemma foldl_max_first (l : list A) (x : A) :
  ∃ l1 l2, x :: l = l1 ++ foldl (max_step key) x l :: l2
           ∧ ∀ y, y ∈ l1 → dt_lt (key y) (key (foldl (max_step key) x l)).
Proof.
  revert x; induction l as [|y l IH]; intros x; simpl.
  { exists [], []. split; [done|]. by intros y ?%not_elem_of_nil. }
  unfold max_step at 2 4. case_decide as Hgt.
  - destruct (IH y) as (l1 & l2 & Heq & Hlt).
    exists (x :: l1), l2. split; [by rewrite Heq|].
    intros z [->|Hz]%elem_of_cons; [|by apply Hlt].
    eapply dt_lt_le_trans; [by apply dt_gt_lt|apply foldl_max_ge_init].
  - destruct (IH x) as (l1 & l2 & Heq & Hlt).
    destruct l1 as [|x' l1]; simpl in Heq.
    + injection Heq as Hx Hl. exists [], (y :: l). split; [by rewrite <- Hx|].
      by intros z ?%not_elem_of_nil.
    + injection Heq as <- Hl. exists (x :: y :: l1), l2.
      split; [simpl; do 2 f_equal; exact Hl|].
      intros z [->|[->|Hz]%elem_of_cons]%elem_of_cons.
      * apply Hlt. by left.
      * eapply dt_le_lt_trans; [exact Hgt|]. apply Hlt. by left.
      * apply Hlt. by right.
Qed.
End first_max.

Lemma enumerate_sorted {A} (l : list A) :
  StronglySorted (λ a b : nat * A, a.1 < b.1) (enumerate l).
Proof.
  induction l as [|x l IH] using rev_ind; [constructor|].
  unfold enumerate. rewrite imap_app. simpl.
  apply StronglySorted_app_2; [|done|repeat constructor].
  intros c1 c2 Hc1 Hc2. apply elem_of_enumerate in Hc1.
  apply list_elem_of_singleton in Hc2 as ->. simpl. rewrite Nat.add_0_r.
  by eapply lookup_lt_Some.
Qed.

Lemma StronglySorted_filter {A} (R : relation A) (P : A → Prop)
    `{!∀ x, Decision (P x)} (l : list A) :
  StronglySorted R l → StronglySorted R (filter P l).
Proof.
  induction 1 as [|x l Hl IH Hx]; [constructor|].
  destruct (decide (P x)).
  - rewrite filter_cons_True by done. constructor; [done|].
    apply Forall_forall. intros y [_ Hy]%list_elem_of_filter.
    rewrite Forall_forall in Hx. by apply Hx.
  - by rewrite filter_cons_False.
Qed.

(** Among candidates listed in the order of the store, [max] by
    [system_from] takes the one stored first among the greatest. *)
Lemma py_max_first_index {A} (key : A → datetime) (cands : list (nat * A)) i x :
  StronglySorted (λ a b : nat * A, a.1 < b.1) cands →
  py_max (λ c, key c.2) cands = Return (i, x) →
  ∀ j y, (j, y) ∈ cands → j < i → dt_lt (key y) (key x).
Proof.
  intros Hsorted Hmax j y Hin Hlt.
  destruct cands as [|c cs]; [done|]. injection Hmax as Hmax.
  destruct (foldl_max_first (λ c : nat * A, key c.2) cs c)
    as (l1 & l2 & Heq & Hfirst).
  rewrite Hmax in Heq, Hfirst. rewrite Heq in Hin, Hsorted.
  apply elem_of_app in Hin as [Hin|Hin]; [by apply (Hfirst (j, y))|].
  apply StronglySorted_app_1_r, StronglySorted_inv in Hsorted as [_ Hall].
  apply elem_of_cons in Hin as [[= -> ->]|Hin]; [lia|].
  rewrite Forall_forall in Hall. specialize (Hall _ Hin). simpl in Hall. lia.
Qed.

(** X4: When several matching records share the greatest [system_from],
    [update_value] closes the one stored first: every matching record
    stored before the closed one has a strictly smaller [system_from],
    and every one stored after it a smaller or equal one.  The closed
    record gets the update time as [system_to] and keeps its other
    fields. *)
Theorem update_value_first_of_ties (self : TemporalDB)
    (fname lname loinc : string) (vt : datetime) (new_value : string)
    (t_update : option datetime) :
  let t := default (current_time self) t_update in
  let matching r :=
    first_name r = fname ∧ last_name r = lname ∧ loinc_num r = loinc
    ∧ valid_time r = vt ∧ _is_alive_at r t = true in
  (∃ r, r ∈ records self ∧ matching r) →
  ∃ i current out,
    records self !! i = Some current ∧ matching current
    ∧ (∀ j r, j < i → records self !! j = Some r → matching r →
              dt_lt (system_from r) (system_from current))
    ∧ (∀ j r, i < j → records self !! j = Some r → matching r →
              dt_le (system_from r) (system_from current))
    ∧ update_value self fname lname loinc vt new_value t_update =
      Return (mk_db (current_time self)
                (<[i := mk_record (first_name current) (last_name current)
                         (loinc_num current) (value current) (unit_ current)
                         (valid_time current) (system_from current)
                         (Some t)]> (records self)
                   ++ [mk_record (first_name current) (last_name current)
                         (loinc_num current) new_value (unit_ current)
                         (valid_time current) t None])
                (loinc_name self),
              out).
Proof.
  intros t matching (r0 & Hr0 & Hm0).
  assert (Hmatching : ∀ r, matching r ↔ current_at fname lname loinc vt t r).
  { intros r. unfold matching, current_at. by rewrite Is_true_true. }
  apply Hmatching in Hm0.
  unfold update_value. fold t. cbv zeta.
  set (candidates := filter _ (enumerate (records self))).
  destruct (elem_of_enumerate_filter (current_at fname lname loinc vt t)
              _ r0 Hr0 Hm0) as [i0 Hi0].
  fold candidates in Hi0. rewrite decide_False by by eapply elem_of_not_nil.
  destruct (py_max_spec (λ c, system_from c.2) candidates
              (elem_of_not_nil _ _ Hi0)) as ([i current] & Hmax & Hin & Hge).
  rewrite Hmax. simpl.
  apply list_elem_of_filter in Hin as [Hm Hin]. apply elem_of_enumerate in Hin.
  assert (Hcand : ∀ j r, records self !! j = Some r → matching r →
                         (j, r) ∈ candidates).
  { intros j r Hj Hr%Hmatching. apply list_elem_of_filter.
    split; [done|]. by apply elem_of_enumerate. }
  exists i, current. eexists. split_and!; [done|by apply Hmatching| | |done].
  - intros j r Hlt Hj Hr.
    refine (py_max_first_index system_from candidates i current _ Hmax j r _ Hlt).
    + apply StronglySorted_filter, enumerate_sorted.
    + by apply Hcand.
  - intros j r _ Hj Hr. apply (Hge (j, r)). by apply Hcand.
Qed.

Lemma update_value_first_of_ties_witness :
  ∃ out,
    update_value tie_db "John" "Doe" "12345-6" (dt 2024 1 1 10 0) "8"
      (Some (dt 2024 1 15 0 0))
    = Return (mk_db (dt 2024 6 1 0 0)
                [john_record;
                 mk_record "John" "Doe" "12345-6" "6" "mg"
                   (dt 2024 1 1 10 0) (dt 2024 1 5 0 0)
                   (Some (dt 2024 1 15 0 0));
                 tie_second;
                 mk_record "John" "Doe" "12345-6" "8" "mg"
                   (dt 2024 1 1 10 0) (dt 2024 1 15 0 0) None]
                ∅,
              out).
Proof.
  destruct (update_value_first_of_ties tie_db "John" "Doe" "12345-6"
              (dt 2024 1 1 10 0) "8" (Some (dt 2024 1 15 0 0)))
    as (i & current & out & Hi & _ & Hbefore & Hafter & Hres).
  { exists tie_first. split; [by right; left|by vm_compute]. }
  exists out.
  assert (∀ r, r ∈ records tie_db →
               first_name r = "John" ∧ last_name r = "Doe"
               ∧ loinc_num r = "12345-6" ∧ valid_time r = dt 2024 1 1 10 0
               ∧ _is_alive_at r (dt 2024 1 15 0 0) = true) as Hall.
  { intros r Hr. repeat (apply elem_of_cons in Hr as [->|Hr]; [by vm_compute|]).
    by apply not_elem_of_nil in Hr. }
  destruct i as [|[|[|i]]]; simpl in Hi.
  - exfalso. injection Hi as <-.
    apply (Hafter 1 tie_first); [lia|done|by apply Hall; right; left|].
    by vm_compute.
  - injection Hi as <-. exact Hres.
  - exfalso. injection Hi as <-.
    assert (dt_lt (system_from tie_first) (system_from tie_second)) as Hlt.
    { apply (Hbefore 1 tie_first); [lia|done|]. apply Hall. by right; left. }
    by vm_compute in Hlt.
  - discriminate Hi.
Defined.

(** ** Reading after a mutation *)

Lemma datetime_of_parts (a b : datetime) :
  dt_date a = dt_date b → dt_time a = dt_time b → a = b.
Proof.
  destruct a, b; unfold dt_date, dt_time; simpl.
  by intros [= -> -> ->] [= -> -> -> ->].
Qed.

(** A version closed at [t] is alive from its [system_from] up to, and
    not including, [t]. *)
Lemma alive_set_system_to r t p :
  _is_alive_at (set_system_to r t) p ↔ dt_le (system_from r) p ∧ dt_lt p t.
Proof. by rewrite alive_at_spec. Qed.

Lemma closed_version_dead r t p :
  dt_le t p → ¬ _is_alive_at (set_system_to r t) p.
Proof. intros Hle [_ Hlt]%alive_set_system_to. by apply dt_not_le_lt in Hlt. Qed.

(** With one open version per key and nothing closed after [t], the
    version of a key alive at [t] is the only one alive from [t] on. *)
Lemma no_other_alive l t p i j cur r :
  at_most_one_open l → closed_by t l →
  l !! i = Some cur → _is_alive_at cur t → dt_le t p →
  l !! j = Some r → j ≠ i → same_key r cur → ¬ _is_alive_at r p.
Proof.
  intros Hone Hclosed Hi Hcur Hle Hj Hne Hkey Hr.
  assert (system_to cur = None) as Hopen.
  { apply (alive_open _ t Hcur). intros st. apply Hclosed.
    by eapply list_elem_of_lookup_2. }
  apply alive_at_spec in Hr as [_ Hr].
  destruct (system_to r) as [st|] eqn:Hst.
  - apply dt_not_le_lt in Hr. apply Hr. etrans; [|exact Hle].
    apply (Hclosed r); [by eapply list_elem_of_lookup_2|done].
  - by apply Hne, (Hone j i r cur).
Qed.

(** X5: Read your writes: in a store with one open version per key and
    nothing closed after the update time, a successful [update_value]
    makes the exact-time [query_value] of that measurement return the
    new version from every perspective at or after the update time: the
    answer holds the patient, code and valid time asked for, the new
    value, the unit of the version that was closed, the update time as
    [system_from] and no [system_to]. *)
Theorem update_then_query (self self' : TemporalDB) (fname lname loinc : string)
    (vt : datetime) (new_value : string) (t_update : option datetime)
    (out : list (list printed)) (date p : datetime) :
  let t := default (current_time self) t_update in
  at_most_one_open (records self) → closed_by t (records self) →
  (∃ r, r ∈ records self ∧ current_at fname lname loinc vt t r) →
  update_value self fname lname loinc vt new_value t_update
  = Return (self', out) →
  dt_date date = dt_date vt → dt_le t p →
  ∃ current,
    current ∈ records self ∧ current_at fname lname loinc vt t current
    ∧ query_value self' fname lname loinc date (Some (dt_time vt)) (Some p)
      = Return (Some (mk_value_result fname lname loinc
                        (default loinc (loinc_name self !! loinc))
                        new_value (unit_ current) vt t None)).
Proof.
  intros t Hone Hclosed (r0 & Hr0 & Hm0) Hupd Hdate Hle.
  destruct (update_value_cases self fname lname loinc vt new_value t_update)
    as [[_ Hnone]|(i & current & Hi & Hm & _ & Hres)];
    [by destruct (Hnone r0 Hr0)|].
  fold t in Hm, Hres. rewrite Hres in Hupd. injection Hupd as <- _.
  exists current. split_and!; [by eapply list_elem_of_lookup_2|done|].
  destruct Hm as (Hfn & Hln & Hcode & Hvt & Hal).
  rewrite query_value_exact_unfold. cbv zeta. cbn [default from_option id].
  assert (exact_alive
            (mk_db (current_time self)
               (<[i:=set_system_to current t]> (records self)
                  ++ [new_version current new_value t]) (loinc_name self))
            fname lname loinc date (dt_time vt) p
          = [new_version current new_value t]) as ->.
  2:{ simpl. unfold value_result, long_name_of. simpl.
      by rewrite Hfn, Hln, Hcode, Hvt. }
  unfold exact_alive. simpl. rewrite !filter_app.
  match goal with |- ?a ++ ?b = _ => assert (a = []) as -> end.
  { apply elem_of_nil_inv. intros r.
    rewrite !list_elem_of_filter.
    intros (Hr & Htm & Hday & [j Hj]%list_elem_of_lookup).
    apply list_lookup_insert_Some in Hj as [(-> & <- & _)|[Hne Hj]].
    { by apply (closed_version_dead current t p). }
    apply (no_other_alive (records self) t p i j current r); try done.
    destruct Hday as (? & ? & ? & Hd).
    split_and!; try congruence.
    rewrite Hvt. apply datetime_of_parts; congruence. }
  simpl. rewrite !filter_cons_True; [done| | |].
  - apply alive_at_spec. by split.
  - simpl. by rewrite Hvt.
  - split_and!; simpl; congruence.
Qed.

Lemma update_then_query_witness :
  ∃ current,
    current ∈ records john_db
    ∧ current_at "John" "Doe" "12345-6" (dt 2024 1 1 10 0) (dt 2024 1 2 0 0)
        current
    ∧ query_value
        (mk_db (current_time john_db)
           (<[0 := set_system_to john_record (dt 2024 1 2 0 0)]>
              (records john_db)
              ++ [new_version john_record "7" (dt 2024 1 2 0 0)])
           (loinc_name john_db))
        "John" "Doe" "12345-6" (dt 2024 1 1 0 0)
        (Some (dt_time (dt 2024 1 1 10 0))) (Some (dt 2024 1 3 0 0))
      = Return (Some (mk_value_result "John" "Doe" "12345-6"
                        (default "12345-6" (loinc_name john_db !! "12345-6"))
                        "7" (unit_ current) (dt 2024 1 1 10 0)
                        (dt 2024 1 2 0 0) None)).
Proof.
  eapply (update_then_query john_db _ "John" "Doe" "12345-6"
            (dt 2024 1 1 10 0) "7" (Some (dt 2024 1 2 0 0))).
  - apply at_most_one_open_singleton.
  - apply closed_by_open. by repeat constructor.
  - exists john_record. split; [by left|by vm_compute].
  - by vm_compute.
  - reflexivity.
  - by vm_compute.
Defined.

(** X6: In a store with one open version per key and nothing closed after
    the delete time, after [delete_value] with a time of day has closed
    a record, the exact-time [query_value] of that measurement finds
    nothing from every perspective at or after the delete time. *)
Theorem delete_then_query (self self' : TemporalDB) (fname lname loinc : string)
    (date : datetime) (tm : time) (t_delete : option datetime)
    (out : list (list printed)) (p : datetime) :
  let t := default (current_time self) t_delete in
  at_most_one_open (records self) → closed_by t (records self) →
  (∃ r, r ∈ records self ∧ on_day_at fname lname loinc date t r
        ∧ dt_time (valid_time r) = tm) →
  delete_value self fname lname loinc date (Some tm) t_delete
  = Return (self', out) →
  dt_le t p →
  query_value self' fname lname loinc date (Some tm) (Some p) = Return None.
Proof.
  intros t Hone Hclosed (r0 & Hr0 & Hd0 & Htm0) Hdel Hle.
  destruct (delete_value_cases self fname lname loinc date (Some tm) t_delete)
    as [(msg & _ & Hnone)|(i & target & Hi & Htarget & Hres)];
    [by destruct (Hnone r0 Hr0 Hd0)|].
  fold t in Htarget, Hres. rewrite Hres in Hdel. injection Hdel as <- _.
  destruct Htarget as ((Hfn & Hln & Hcode & Hday & Hal) & Htm & _).
  simpl in Htm.
  rewrite query_value_exact_unfold. cbv zeta. cbn [default from_option id].
  rewrite decide_True; [done|].
  apply elem_of_nil_inv. intros r. rewrite elem_of_exact_alive. simpl.
  intros ([j Hj]%list_elem_of_lookup & Hd & Hrtm & Hr).
  apply list_lookup_insert_Some in Hj as [(-> & <- & _)|[Hne Hj]].
  { by apply (closed_version_dead target t p). }
  apply (no_other_alive (records self) t p i j target r); try done.
  destruct Hd as (? & ? & ? & Hd).
  split_and!; try congruence. apply datetime_of_parts; congruence.
Qed.

Lemma delete_then_query_witness :
  query_value
    (mk_db (current_time john_db)
       (<[0 := set_system_to john_record (dt 2024 2 1 0 0)]> (records john_db))
       (loinc_name john_db))
    "John" "Doe" "12345-6" (dt 2024 1 1 0 0) (Some (mk_time 10 0 0 0))
    (Some (dt 2024 2 2 0 0))
  = Return None.
Proof.
  eapply (delete_then_query john_db _ "John" "Doe" "12345-6"
            (dt 2024 1 1 0 0) (mk_time 10 0 0 0) (Some (dt 2024 2 1 0 0))).
  - apply at_most_one_open_singleton.
  - apply closed_by_open. by repeat constructor.
  - exists john_record. split; [by left|by vm_compute].
  - by vm_compute.
  - by vm_compute.
Defined.

(** ** Perspectives before a mutation *)

Section related_lists.
Context {A : Type} (R : A → A → Prop).

Lemma Forall2_filter_rel (P Q : A → Prop)
    `{!∀ x, Decision (P x), !∀ x, Decision (Q x)} (l l0 : list A) :
  Forall2 R l l0 → (∀ a b, R a b → P a ↔ Q b) →
  Forall2 R (filter P l) (filter Q l0).
Proof.
  intros Hl HPQ. induction Hl as [|a b l l0 Hab _ IH]; [constructor|].
  destruct (decide (P a)) as [Ha|Ha].
  - rewrite !filter_cons_True; [by constructor|by apply (HPQ a b)|done].
  - rewrite !filter_cons_False; [done| |done]. by rewrite <- (HPQ a b).
Qed.

Lemma Forall2_fmap_eq {B} (f : A → B) (l l0 : list A) :
  Forall2 R l l0 → (∀ a b, R a b → f a = f b) → f <$> l = f <$> l0.
Proof.
  intros Hl Hf. induction Hl as [|a b l l0 Hab _ IH]; [done|].
  simpl. f_equal; [by apply Hf|done].
Qed.

Lemma foldl_max_rel (key : A → datetime) (l l0 : list A) (x x0 : A) :
  (∀ a b, R a b → key a = key b) → Forall2 R l l0 → R x x0 →
  R (foldl (max_step key) x l) (foldl (max_step key) x0 l0).
Proof.
  intros Hkey Hl. revert x x0.
  induction Hl as [|a b l l0 Hab _ IH]; intros x x0 Hx; simpl; [done|].
  apply IH. unfold max_step.
  rewrite (Hkey a b Hab), (Hkey x x0 Hx). by case_decide.
Qed.

(** On lists that correspond element by element, with equal keys, [max]
    fails on both or returns corresponding elements. *)
Lemma py_max_rel (key : A → datetime) (l l0 : list A) :
  (∀ a b, R a b → key a = key b) → Forall2 R l l0 →
  (py_max key l = Raise ValueError ∧ py_max key l0 = Raise ValueError)
  ∨ ∃ a b, py_max key l = Return a ∧ py_max key l0 = Return b ∧ R a b.
Proof.
  intros Hkey [|x x0 l' l0' Hx Hl]; [by left|]. right.
  eexists _, _. split_and!; [done..|]. by apply foldl_max_rel.
Qed.
End related_lists.

Lemma dt_lt_trans a b c : dt_lt a b → dt_lt b c → dt_lt a c.
Proof. intros Hab Hbc. eapply dt_lt_le_trans; [done|by apply dt_lt_le]. Qed.

(** Seen from a perspective before its time, a mutation leaves every
    record as it was up to [system_to], alive when it was alive, and
    appends nothing that is alive. *)
Lemma closes_at_past t p l l' :
  closes_at t l l' → dt_lt p t →
  ∃ l0 tail,
    l' = l0 ++ tail ∧ Forall2 (same_at p) l l0
    ∧ Forall (λ r, ¬ _is_alive_at r p) tail.
Proof.
  assert (Hrefl : ∀ l, Forall2 (same_at p) l l).
  { intros l0. apply Forall_Forall2_diag, Forall_forall. intros r _.
    split; [by repeat split|done]. }
  intros [->|(i & target & tail & Hi & Hal & -> & Htail)] Hlt.
  { exists l, []. rewrite app_nil_r. by split_and!. }
  exists (<[i := set_system_to target t]> l), tail. split_and!; [done| |].
  - rewrite <- (list_insert_id l i target Hi) at 1.
    apply Forall2_insert; [done|]. split; [by repeat split|].
    rewrite alive_set_system_to. apply alive_at_spec in Hal as [_ Hto].
    rewrite alive_at_spec. split; [by intros [? _]|]. intros [Hfrom _].
    split; [done|]. destruct (system_to target); [|done].
    by eapply dt_lt_trans.
  - destruct Htail as [->|[v ->]]; [constructor|].
    repeat constructor. intros [Hfrom _]%alive_at_spec. simpl in Hfrom.
    by apply dt_not_le_lt in Hlt.
Qed.

Lemma filter_none_alive (p : datetime) (l : list TemporalRecord) :
  Forall (λ r, ¬ _is_alive_at r p) l → filter (λ r, _is_alive_at r p) l = [].
Proof.
  rewrite Forall_forall. intros Hl. apply elem_of_nil_inv. intros r.
  rewrite list_elem_of_filter. intros [Hr Hin]. by apply (Hl r).
Qed.

Lemma same_at_value_result (p : datetime) (long_name : string) r r' :
  same_at p r r' →
  without_system_to (Return (Some (value_result long_name r')))
  = without_system_to (Return (Some (value_result long_name r))).
Proof.
  intros [(Hfn & Hln & Hcode & Hv & Hu & Hvt & Hsf) _].
  unfold without_system_to, value_result. simpl. by rewrite Hfn, Hln, Hcode, Hv, Hu, Hvt, Hsf.
Qed.

Lemma same_at_keys p a b :
  same_at p a b →
  system_from a = system_from b ∧ valid_time a = valid_time b
  ∧ ∀ fname lname loinc date,
      on_day fname lname loinc date a ↔ on_day fname lname loinc date b.
Proof.
  intros [(Hfn & Hln & Hcode & _ & _ & Hvt & Hsf) _]. split_and!; try done.
  intros fname lname loinc date. unfold on_day. by rewrite Hfn, Hln, Hcode, Hvt.
Qed.

(** What [query_value] selects on two lists of alive candidates that
    correspond element by element. *)
Lemma select_exact_rel p long_name (alive alive' : list TemporalRecord) :
  Forall2 (same_at p) alive alive' →
  without_system_to
    (if decide (alive' = []) then Return None
     else best ← py_max system_from alive';
          Return (Some (value_result long_name best)))
  = without_system_to
      (if decide (alive = []) then Return None
       else best ← py_max system_from alive;
            Return (Some (value_result long_name best))).
Proof.
  intros Hrel.
  destruct (py_max_rel (same_at p) system_from alive alive')
    as [[H1 H2]|(a & b & H1 & H2 & Hab)]; [|done| |].
  - intros a b Hab. by apply same_at_keys in Hab as [? _].
  - destruct alive; [|done]. by destruct alive'.
  - rewrite !decide_False by (by intros ->). rewrite H1, H2. simpl.
    by apply (same_at_value_result p).
Qed.

Lemma select_day_rel p long_name (alive alive' : list TemporalRecord) :
  Forall2 (same_at p) alive alive' →
  without_system_to
    (if decide (alive' = []) then Return None
     else max_valid ← py_max id (valid_time <$> alive');
          best ← py_max system_from
                   (filter (λ r, valid_time r = max_valid) alive');
          Return (Some (value_result long_name best)))
  = without_system_to
      (if decide (alive = []) then Return None
       else max_valid ← py_max id (valid_time <$> alive);
            best ← py_max system_from
                     (filter (λ r, valid_time r = max_valid) alive);
            Return (Some (value_result long_name best))).
Proof.
  intros Hrel.
  assert (valid_time <$> alive = valid_time <$> alive') as Hvt.
  { apply (Forall2_fmap_eq (same_at p)); [done|].
    intros a b Hab. by apply same_at_keys in Hab as (_ & ? & _). }
  destruct (decide (alive = [])) as [->|Hne].
  { apply Forall2_nil_inv_l in Hrel as ->. by rewrite decide_True. }
  rewrite decide_False.
  2:{ intros ->. by apply Forall2_nil_inv_r in Hrel. }
  rewrite <- Hvt. destruct (py_max id (valid_time <$> alive)) as [mv|e]; [|done].
  simpl.
  destruct (py_max_rel (same_at p) system_from
              (filter (λ r, valid_time r = mv) alive)
              (filter (λ r, valid_time r = mv) alive'))
    as [[-> ->]|(a & b & -> & -> & Hab)]; [| |done|].
  - intros a b Hab. by apply same_at_keys in Hab as [? _].
  - apply Forall2_filter_rel; [done|]. intros a b Hab.
    apply same_at_keys in Hab as (_ & -> & _). done.
  - simpl. by apply (same_at_value_result p).
Qed.

(** X7: Time travel: a query whose perspective lies before the time of an
    [update_value] or [delete_value] call returns after the call what it
    returned before, up to the [system_to] entry of the result. *)
Theorem past_perspective_unchanged (self self' : TemporalDB) (op : mutation)
    (out : list (list printed)) (fname lname loinc : string)
    (date : datetime) (time : option time) (perspective : option datetime) :
  let p := default (current_time self) perspective in
  apply_mutation self op = Return (self', out) →
  dt_lt p (mutation_time self op) →
  without_system_to
    (query_value self' fname lname loinc date time perspective)
  = without_system_to
      (query_value self fname lname loinc date time perspective).
Proof.
  intros p Hop Hlt.
  destruct (apply_mutation_closes self op) as (s1 & o1 & Hop1 & Hclock & Hstep).
  destruct (apply_mutation_frame self op) as (s2 & o2 & Hop2 & _ & Hnames & _).
  rewrite Hop in Hop1, Hop2. injection Hop1 as <- <-. injection Hop2 as <- <-.
  destruct (closes_at_past _ p _ _ Hstep Hlt) as (l0 & tail & Hl' & Hrel & Htail).
  assert (Hlong : long_name_of self' loinc = long_name_of self loinc).
  { unfold long_name_of. by rewrite Hnames. }
  assert (Hday : Forall2 (same_at p)
            (filter (on_day fname lname loinc date) (records self))
            (filter (on_day fname lname loinc date) l0)).
  { apply Forall2_filter_rel; [done|]. intros a b Hab.
    apply same_at_keys in Hab as (_ & _ & Hab). apply Hab. }
  assert (Hdead : ∀ l, (∀ r, r ∈ l → r ∈ tail) →
            filter (λ r, _is_alive_at r p) l = []).
  { intros l Hl. apply filter_none_alive, Forall_forall. intros r Hr.
    rewrite Forall_forall in Htail. by apply Htail, Hl. }
  destruct time as [tm|].
  - rewrite !query_value_exact_unfold. cbv zeta. rewrite Hclock, Hlong. fold p.
    apply (select_exact_rel p).
    unfold exact_alive. rewrite Hl', !filter_app, (Hdead (filter _ (filter _ tail))), app_nil_r.
    + apply Forall2_filter_rel; [|by intros a b [_ ?]].
      apply Forall2_filter_rel; [done|]. intros a b Hab.
      by apply same_at_keys in Hab as (_ & -> & _).
    + intros r [_ [_ ?]%list_elem_of_filter]%list_elem_of_filter. done.
  - rewrite !query_value_day_unfold. cbv zeta. rewrite Hclock, Hlong. fold p.
    apply (select_day_rel p).
    unfold day_alive. rewrite Hl', !filter_app, (Hdead (filter _ tail)), app_nil_r.
    + apply Forall2_filter_rel; [done|by intros a b [_ ?]].
    + by intros r [_ ?]%list_elem_of_filter.
Qed.

Lemma past_perspective_unchanged_witness :
  without_system_to
    (query_value
       (mk_db (current_time john_db)
          (<[0 := set_system_to john_record (dt 2024 2 1 0 0)]>
             (records john_db))
          (loinc_name john_db))
       "John" "Doe" "12345-6" (dt 2024 1 1 0 0) (Some (mk_time 10 0 0 0))
       (Some (dt 2024 1 15 0 0)))
  = without_system_to
      (query_value john_db "John" "Doe" "12345-6" (dt 2024 1 1 0 0)
         (Some (mk_time 10 0 0 0)) (Some (dt 2024 1 15 0 0))).
Proof.
  eapply (past_perspective_unchanged john_db _ delete_february);
    by vm_compute.
Defined.

(** ** How the operations agree *)

Lemma py_max_Return_elem {A} (key : A → datetime) (l : list A) (b : A) :
  py_max key l = Return b → b ∈ l.
Proof.
  destruct l as [|x l]; [done|]. intros [= <-]. apply foldl_max_elem.
Qed.

(** X8: The date-only answer is the exact-time answer at the time of day of
    the measurement it returns. *)
Theorem date_only_is_exact_at_latest (self : TemporalDB)
    (fname lname loinc : string) (date : datetime)
    (perspective : option datetime) (v : ValueResult) :
  query_value self fname lname loinc date None perspective = Return (Some v) →
  query_value self fname lname loinc date (Some (dt_time (v_valid_time v)))
    perspective = Return (Some v).
Proof.
  rewrite query_value_day_unfold, query_value_exact_unfold. cbv zeta.
  set (p := default (current_time self) perspective).
  set (alive := day_alive self fname lname loinc date p).
  case_decide as Halive; [done|].
  destruct (py_max id (valid_time <$> alive)) as [mv|e]; [|done]. simpl.
  destruct (py_max system_from (filter (λ r, valid_time r = mv) alive))
    as [best|e] eqn:Hbest; [|done]. simpl. intros [= <-]. simpl.
  pose proof (py_max_Return_elem _ _ _ Hbest) as Hin.
  apply list_elem_of_filter in Hin as [Hmv Hin].
  apply elem_of_day_alive in Hin as (_ & (_ & _ & _ & Hdate) & _).
  assert (exact_alive self fname lname loinc date (dt_time (valid_time best)) p
          = filter (λ r, valid_time r = mv) alive) as ->.
  { unfold exact_alive, alive, day_alive. rewrite !list_filter_filter.
    apply list_filter_iff_elem.
    intros r _. rewrite Hmv. split.
    - intros [[Hal Htm] Hday]. split_and!; try done.
      apply datetime_of_parts; [|done].
      destruct Hday as (_ & _ & _ & ->). by rewrite <- Hdate, Hmv.
    - by intros [[-> Hal] Hday]. }
  rewrite decide_False; [by rewrite Hbest|].
  intros Hnil. by rewrite Hnil in Hbest.
Qed.

Lemma date_only_is_exact_at_latest_witness :
  query_value day_db "John" "Doe" "12345-6" (dt 2024 1 1 0 0)
    (Some (dt_time (v_valid_time
                      (value_result (long_name_of day_db "12345-6")
                         afternoon_record)))) None
  = Return (Some (value_result (long_name_of day_db "12345-6")
                    afternoon_record)).
Proof.
  apply (date_only_is_exact_at_latest day_db "John" "Doe" "12345-6"
           (dt 2024 1 1 0 0) None).
  by vm_compute.
Defined.

(** X9: [update_value] closes the record that [delete_value] closes when it
    is given the same valid time as date and time of day: both find
    nothing, or the records after the update are the records after the
    deletion followed by the new version. *)
Theorem update_is_delete_then_append (self self_u : TemporalDB)
    (fname lname loinc : string) (vt : datetime) (new_value : string)
    (t : option datetime) (out_u : list (list printed)) :
  let t' := default (current_time self) t in
  update_value self fname lname loinc vt new_value t = Return (self_u, out_u) →
  ∃ self_d out_d,
    delete_value self fname lname loinc vt (Some (dt_time vt)) t
    = Return (self_d, out_d)
    ∧ ((self_u = self ∧ self_d = self)
       ∨ ∃ i current,
           records self !! i = Some current
           ∧ records self_d = <[i := set_system_to current t']> (records self)
           ∧ records self_u
             = records self_d ++ [new_version current new_value t']).
Proof.
  intros t'. unfold update_value, delete_value. fold t'. cbv zeta.
  set (found := filter (λ c : nat * TemporalRecord,
                  on_day_at fname lname loinc vt t' c.2)
                  (enumerate (records self))).
  assert (filter (λ c : nat * TemporalRecord,
                    current_at fname lname loinc vt t' c.2)
            (enumerate (records self))
          = filter (λ c : nat * TemporalRecord,
                      dt_time (valid_time c.2) = dt_time vt) found) as ->.
  { unfold found. rewrite list_filter_filter. apply list_filter_iff.
    intros [j r]. unfold current_at, on_day_at. simpl. split.
    - by intros (-> & -> & -> & -> & ?).
    - intros (Htm & -> & -> & -> & Hd & ?). split_and!; try done.
      by apply datetime_of_parts. }
  set (same_time := filter _ found).
  destruct (decide (same_time = [])) as [Hnil|Hne].
  - intros [= <- _].
    destruct (decide (found = [])); eexists _, _; (split; [done|by left]).
  - rewrite (decide_False (P := found = [])).
    2:{ intros Hnil. apply Hne. unfold same_time. by rewrite Hnil. }
    destruct (py_max_spec (λ c, system_from c.2) same_time Hne)
      as ([i current] & Hmax & Hin & _).
    rewrite Hmax. simpl. intros [= <- _].
    rewrite (close_latest_spec _ _ _ _ _ Hmax).
    eexists _, _. split; [done|]. right. exists i, current.
    apply list_elem_of_filter in Hin as [_ Hin].
    apply list_elem_of_filter in Hin as [_ Hin].
    apply elem_of_enumerate in Hin. by split_and!.
Qed.

Lemma update_is_delete_then_append_witness :
  ∃ self_d out_d,
    delete_value john_db "John" "Doe" "12345-6" (dt 2024 1 1 10 0)
      (Some (dt_time (dt 2024 1 1 10 0))) (Some (dt 2024 1 15 0 0))
    = Return (self_d, out_d)
    ∧ ((mk_db (current_time john_db)
          (<[0 := set_system_to john_record (dt 2024 1 15 0 0)]>
             (records john_db)
             ++ [new_version john_record "7" (dt 2024 1 15 0 0)])
          (loinc_name john_db) = john_db ∧ self_d = john_db)
       ∨ ∃ i current,
           records john_db !! i = Some current
           ∧ records self_d
             = <[i := set_system_to current (dt 2024 1 15 0 0)]>
                 (records john_db)
           ∧ <[0 := set_system_to john_record (dt 2024 1 15 0 0)]>
               (records john_db)
               ++ [new_version john_record "7" (dt 2024 1 15 0 0)]
             = records self_d
               ++ [new_version current "7" (dt 2024 1 15 0 0)]).
Proof.
  eapply (update_is_delete_then_append john_db
            (mk_db (current_time john_db)
               (<[0 := set_system_to john_record (dt 2024 1 15 0 0)]>
                  (records john_db)
                  ++ [new_version john_record "7" (dt 2024 1 15 0 0)])
               (loinc_name john_db))
            "John" "Doe" "12345-6"
            (dt 2024 1 1 10 0) "7" (Some (dt 2024 1 15 0 0))).
  by vm_compute.
Defined.

(** ** Sessions on the clock of the store *)

Lemma closed_by_mono t t' l : closed_by t l → dt_le t t' → closed_by t' l.
Proof. intros Hclosed Hle r st Hr Hst. etrans; [by eapply Hclosed|done]. Qed.

Lemma do_call_spec (self : TemporalDB) (c : call) :
  at_most_one_open (records self) →
  closed_by (current_time self) (records self) →
  clock_forward (current_time self) [c] →
  ∃ self',
    do_call self c = Return self'
    ∧ at_most_one_open (records self')
    ∧ closed_by (current_time self') (records self')
    ∧ dt_le (current_time self) (current_time self')
    ∧ (∀ calls, clock_forward (current_time self) (c :: calls) →
                clock_forward (current_time self') calls).
Proof.
  intros Hone Hclosed Hfwd.
  destruct c as [fname lname loinc vt new_value|fname lname loinc date time|now].
  - destruct (apply_mutation_closes self
                (Update fname lname loinc vt new_value None))
      as (self' & out & Hop & Hclock & Hstep).
    simpl in Hop, Hstep. exists self'. simpl. rewrite Hop, Hclock. simpl.
    split_and!; try done.
    + by eapply closes_at_one_open.
    + by eapply closes_at_closed_by.
  - destruct (apply_mutation_closes self
                (Delete fname lname loinc date time None))
      as (self' & out & Hop & Hclock & Hstep).
    simpl in Hop, Hstep. exists self'. simpl. rewrite Hop, Hclock. simpl.
    split_and!; try done.
    + by eapply closes_at_one_open.
    + by eapply closes_at_closed_by.
  - destruct Hfwd as [Hle _]. exists (set_current_time self now). simpl.
    split_and!; try done.
    + by eapply closed_by_mono.
    + by intros calls [_ ?].
Qed.

Lemma session_spec (self : TemporalDB) (calls : list call) :
  at_most_one_open (records self) →
  closed_by (current_time self) (records self) →
  clock_forward (current_time self) calls →
  ∃ self',
    session self calls = Return self'
    ∧ at_most_one_open (records self')
    ∧ closed_by (current_time self') (records self')
    ∧ dt_le (current_time self) (current_time self').
Proof.
  revert self; induction calls as [|c calls IH]; intros self Hone Hclosed Hfwd.
  { exists self. by split_and!. }
  destruct (do_call_spec self c Hone Hclosed)
    as (self1 & Hc & Hone1 & Hclosed1 & Hle1 & Hfwd1).
  { destruct c; simpl in *; tauto. }
  destruct (IH self1 Hone1 Hclosed1 (Hfwd1 calls Hfwd))
    as (self' & Hs & Hone' & Hclosed' & Hle').
  exists self'. simpl. rewrite Hc. simpl. split_and!; try done. by etrans.
Qed.

(** X10: A session of [update_value], [delete_value] and [set_current_time]
    calls that pass no transaction time and never set the clock back
    never raises and keeps both invariants: no key has two open
    versions, and no [system_to] lies after the clock. *)
Theorem session_keeps_one_open (self : TemporalDB) (calls : list call) :
  at_most_one_open (records self) →
  closed_by (current_time self) (records self) →
  clock_forward (current_time self) calls →
  ∃ self',
    session self calls = Return self'
    ∧ at_most_one_open (records self')
    ∧ closed_by (current_time self') (records self').
Proof.
  intros Hone Hclosed Hfwd.
  destruct (session_spec self calls Hone Hclosed Hfwd)
    as (self' & Hs & Hone' & Hclosed' & _).
  by exists self'.
Qed.

Lemma session_keeps_one_open_witness :
  ∃ self',
    session john_db example_calls = Return self'
    ∧ at_most_one_open (records self')
    ∧ closed_by (current_time self') (records self').
Proof.
  apply (session_keeps_one_open john_db example_calls).
  - apply at_most_one_open_singleton.
  - apply closed_by_open. by repeat constructor.
  - by vm_compute.
Defined.

(** ** Construction *)

Lemma _load_excel_app (records : list TemporalRecord) (rows : list ExcelRow) :
  _load_excel records rows = records ++ (record_of_row <$> rows).
Proof.
  revert records; induction rows as [|row rows IH]; intros records; simpl.
  - by rewrite app_nil_r.
  - unfold _load_excel in *. simpl. by rewrite IH, <- app_assoc.
Qed.

Lemma loaded_one_open (rows : list ExcelRow) :
  NoDup (row_key <$> rows) → at_most_one_open (record_of_row <$> rows).
Proof.
  intros Hnd i j ri rj Hi Hj (Hfn & Hln & Hcode & Hvt) _ _.
  apply list_lookup_fmap_Some in Hi as (rowi & -> & Hi).
  apply list_lookup_fmap_Some in Hj as (rowj & -> & Hj).
  simpl in *. apply (NoDup_lookup _ i j (row_key rowi) Hnd).
  - by rewrite list_lookup_fmap, Hi.
  - rewrite list_lookup_fmap, Hj. simpl. unfold row_key. by rewrite Hfn, Hln, Hcode, Hvt.
Qed.

(** X11: A store built from a spreadsheet holds one open record per row, in
    the order of the rows.  When no two rows share patient, code and
    valid time, every session on it that passes no transaction time and
    never sets the clock back keeps at most one open version per key. *)
Theorem loaded_store_session (now : datetime) (excel_rows : list ExcelRow)
    (loinc_rows : list (string * string)) (calls : list call) :
  let self := __init__ now excel_rows loinc_rows in
  records self = record_of_row <$> excel_rows
  ∧ (NoDup (row_key <$> excel_rows) → clock_forward now calls →
     ∃ self', session self calls = Return self'
              ∧ at_most_one_open (records self')).
Proof.
  intros self.
  assert (records self = record_of_row <$> excel_rows) as Hrecords.
  { unfold self, __init__. simpl. by rewrite _load_excel_app. }
  split; [done|]. intros Hnd Hfwd.
  destruct (session_spec self calls) as (self' & Hs & Hone & _).
  - rewrite Hrecords. by apply loaded_one_open.
  - rewrite Hrecords. apply closed_by_open, Forall_forall.
    by intros r (row & -> & _)%list_elem_of_fmap.
  - done.
  - by exists self'.
Qed.

Lemma loaded_store_session_witness :
  ∃ self',
    session (__init__ (dt 2024 6 1 0 0) example_rows example_catalog)
      example_calls = Return self'
    ∧ at_most_one_open (records self').
Proof.
  apply (proj2 (loaded_store_session (dt 2024 6 1 0 0) example_rows
                  example_catalog example_calls)).
  - apply (bool_decide_unpack _). by vm_compute.
  - by vm_compute.
Defined.

Lemma _load_loinc_lookup (names : gmap string string)
    (rows : list (string * string)) (code : string) :
  foldl (λ names row, <[row.1 := row.2]> names) names rows !! code
  = match last (filter (λ row : string * string, row.1 = code) rows) with
    | Some row => Some row.2
    | None => names !! code
    end.
Proof.
  revert names; induction rows as [|row rows IH]; intros names; simpl; [done|].
  rewrite IH. destruct (decide (row.1 = code)) as [Heq|Hne].
  - rewrite filter_cons_True by done. rewrite last_cons.
    destruct (last (filter _ rows)); [done|]. by rewrite <- Heq, lookup_insert_eq.
  - rewrite filter_cons_False by done.
    destruct (last (filter _ rows)); [done|]. by rewrite lookup_insert_ne.
Qed.

(** X12: The name shown for a code is that of the last catalog row with the
    code; a code without a row is shown as itself. *)
Theorem loaded_long_name (now : datetime) (excel_rows : list ExcelRow)
    (loinc_rows : list (string * string)) (code : string) :
  long_name_of (__init__ now excel_rows loinc_rows) code
  = match last (filter (λ row : string * string, row.1 = code) loinc_rows) with
    | Some row => row.2
    | None => code
    end.
Proof.
  unfold long_name_of, __init__, _load_loinc. simpl.
  rewrite _load_loinc_lookup, lookup_empty. by destruct (last _).
Qed.

(** ** What is shown is what is deleted *)

Lemma snd_enumerate {A} (l : list A) : (enumerate l).*2 = l.
Proof.
  unfold enumerate. rewrite fmap_imap.
  rewrite (imap_ext _ (const id)) by done. by rewrite imap_const, list_fmap_id.
Qed.

Lemma snd_filter {A} (P : A → Prop) `{!∀ x, Decision (P x)}
    (cs : list (nat * A)) :
  (filter (λ c, P c.2) cs).*2 = filter P cs.*2.
Proof.
  induction cs as [|c cs IH]; [done|]. simpl.
  destruct (decide (P c.2)).
  - rewrite !filter_cons_True by done. simpl. by f_equal.
  - by rewrite !filter_cons_False by done.
Qed.

Lemma foldl_max_snd {A} (key : A → datetime) (cs : list (nat * A)) c :
  (foldl (max_step (λ c, key c.2)) c cs).2 = foldl (max_step key) c.2 cs.*2.
Proof.
  revert c; induction cs as [|c' cs IH]; intros c; simpl; [done|].
  rewrite IH. f_equal. unfold max_step. by case_decide.
Qed.

(** [max] over records with their positions picks the record that
    [max] over the records alone picks. *)
Lemma py_max_snd {A} (key : A → datetime) (cs : list (nat * A)) (b : A) :
  py_max key cs.*2 = Return b →
  ∃ i, py_max (λ c, key c.2) cs = Return (i, b) ∧ (i, b) ∈ cs.
Proof.
  destruct cs as [|c cs]; [done|]. simpl. intros [= <-].
  exists (foldl (max_step (λ c, key c.2)) c cs).1.
  rewrite <- foldl_max_snd, <- surjective_pairing. split; [done|].
  apply foldl_max_elem.
Qed.

(** X13: [delete_value] closes the record that [query_value] returns for the
    same arguments and time: when the query finds nothing the store is
    returned unchanged; otherwise the query returns the fields of a
    record of the store, and in the store after the deletion that record
    has the delete time as [system_to] and its other fields as before,
    all other records being as they were. *)
Theorem delete_closes_what_query_shows (self : TemporalDB)
    (fname lname loinc : string) (date : datetime) (time : option time)
    (t : option datetime) :
  let t' := default (current_time self) t in
  match query_value self fname lname loinc date time t with
  | Return None =>
      ∃ out, delete_value self fname lname loinc date time t
             = Return (self, out)
  | Return (Some v) =>
      ∃ i target out,
        records self !! i = Some target
        ∧ v = mk_value_result (first_name target) (last_name target)
                (loinc_num target) (default loinc (loinc_name self !! loinc))
                (value target) (unit_ target) (valid_time target)
                (system_from target) (system_to target)
        ∧ delete_value self fname lname loinc date time t
          = Return (mk_db (current_time self)
                      (<[i := mk_record (first_name target) (last_name target)
                               (loinc_num target) (value target)
                               (unit_ target) (valid_time target)
                               (system_from target) (Some t')]>
                         (records self))
                      (loinc_name self), out)
  | Raise _ => False
  end.
Proof.
  intros t'. unfold delete_value. fold t'. cbv zeta.
  set (found := filter (λ c : nat * TemporalRecord,
                  on_day_at fname lname loinc date t' c.2)
                  (enumerate (records self))).
  assert (Hfound : found.*2 = day_alive self fname lname loinc date t').
  { unfold found, day_alive.
    rewrite (snd_filter (on_day_at fname lname loinc date t')), snd_enumerate,
      list_filter_filter.
    apply list_filter_iff. intros r. unfold on_day_at, on_day. tauto. }
  assert (Hclose : ∀ cands best,
            py_max system_from cands.*2 = Return best →
            (∀ c, c ∈ cands → c ∈ enumerate (records self)) →
            ∃ i target out,
              records self !! i = Some target
              ∧ value_result (long_name_of self loinc) best
                = value_result (long_name_of self loinc) target
              ∧ close_latest self t' cands
                = Return (mk_db (current_time self)
                            (<[i := set_system_to target t']> (records self))
                            (loinc_name self), out)).
  { intros cands best Hbest Hsub.
    destruct (py_max_snd _ _ _ Hbest) as (i & Hmax & Hin).
    exists i, best. eexists. split_and!; [|done|by apply close_latest_spec].
    by apply Hsub, elem_of_enumerate in Hin. }
  destruct time as [tm|].
  - rewrite query_value_exact_unfold. cbv zeta. fold t'.
    set (same_time := filter (λ c : nat * TemporalRecord,
                        dt_time (valid_time c.2) = tm) found).
    assert (same_time.*2 = exact_alive self fname lname loinc date tm t') as Hsame.
    { unfold same_time.
      pose proof (snd_filter (λ r, dt_time (valid_time r) = tm) found) as E.
      etrans; [exact E|].
      rewrite Hfound.
      unfold exact_alive, day_alive. rewrite !list_filter_filter.
      apply list_filter_iff. intros r. tauto. }
    rewrite <- Hsame. destruct (decide (same_time.*2 = [])) as [Hnil|Hne].
    + apply fmap_nil_inv in Hnil.
      destruct (decide (found = [])); [by eexists|].
      rewrite decide_True by done. by eexists.
    + destruct (py_max_spec system_from same_time.*2 Hne) as (best & Hbest & _).
      rewrite Hbest. simpl.
      rewrite !decide_False; [| |].
      * apply Hclose; [done|].
        by intros c [_ [_ ?]%list_elem_of_filter]%list_elem_of_filter.
      * intros Hnil. by rewrite Hnil in Hne.
      * intros Hnil. apply Hne. unfold same_time. by rewrite Hnil.
  - rewrite query_value_day_unfold. cbv zeta. fold t'. rewrite <- Hfound.
    destruct (decide (found.*2 = [])) as [Hnil|Hne].
    + apply fmap_nil_inv in Hnil. rewrite decide_True by done. by eexists.
    + rewrite decide_False by (intros Hnil; by rewrite Hnil in Hne).
      replace ((λ c : nat * TemporalRecord, valid_time c.2) <$> found)
        with (valid_time <$> found.*2)
        by (symmetry; apply (list_fmap_compose snd valid_time)).
      destruct (latest_version_spec valid_time system_from found.*2 Hne)
        as (mv & best & -> & Hbest & _).
      simpl. rewrite Hbest. simpl.
      apply Hclose.
      { pose proof (snd_filter (λ r, valid_time r = mv) found) as E.
        etrans; [|exact Hbest]. f_equal. exact E. }
      by intros c [_ [_ ?]%list_elem_of_filter]%list_elem_of_filter.
Qed.

Lemma delete_closes_what_query_shows_witness :
  ∃ out,
    delete_value day_db "John" "Doe" "12345-6" (dt 2024 1 1 0 0) None None
    = Return (mk_db (dt 2024 6 1 0 0)
                [morning_record;
                 mk_record "John" "Doe" "12345-6" "6" "mg"
                   (dt 2024 1 1 14 0) (dt 2024 1 1 14 5)
                   (Some (dt 2024 6 1 0 0))]
                ∅,
              out).
Proof.
  pose proof (delete_closes_what_query_shows day_db "John" "Doe" "12345-6"
                (dt 2024 1 1 0 0) None None) as Hshown.
  assert (query_value day_db "John" "Doe" "12345-6" (dt 2024 1 1 0 0) None None
          = Return (Some (mk_value_result "John" "Doe" "12345-6" "12345-6"
                            "6" "mg" (dt 2024 1 1 14 0) (dt 2024 1 1 14 5)
                            None))) as Hquery by by vm_compute.
  cbv zeta in Hshown. rewrite Hquery in Hshown.
  destruct Hshown as (i & target & out & Hi & Hv & Hdel).
  exists out. destruct i as [|[|i]]; simpl in Hi.
  - injection Hi as <-. discriminate Hv.
  - injection Hi as <-. exact Hdel.
  - discriminate Hi.
Defined.


(** ** History is not erased *)

(** A mutation at [t] leaves every record as it was up to [system_to]
    and appends at most records whose [system_from] is [t]. *)
Lemma closes_at_versions t l l' :
  closes_at t l l' →
  ∃ l0 tail,
    l' = l0 ++ tail ∧ Forall2 same_version l l0
    ∧ Forall (λ r, system_from r = t) tail.
Proof.
  assert (Hrefl : ∀ l, Forall2 same_version l l).
  { intros l0. apply Forall_Forall2_diag, Forall_forall. intros r _.
    by repeat split. }
  intros [->|(i & target & tail & Hi & _ & -> & Htail)].
  { exists l, []. rewrite app_nil_r. by split_and!. }
  exists (<[i := set_system_to target t]> l), tail. split_and!; [done| |].
  - rewrite <- (list_insert_id l i target Hi) at 1.
    apply Forall2_insert; [done|]. by repeat split.
  - destruct Htail as [->|[v ->]]; by repeat constructor.
Qed.

Lemma group_pick_rel k o o' r r' :
  option_Forall2 same_version o o' → same_version r r' →
  option_Forall2 same_version (group_pick k o r) (group_pick k o' r').
Proof.
  intros Ho Hr. unfold group_pick.
  destruct Hr as (Hfn & Hln & Hcode & Hv & Hu & Hvt & Hsf).
  rewrite Hvt, Hsf. case_decide; [|done].
  destruct Ho as [old old' Hold|]; [|by repeat constructor].
  destruct Hold as (? & ? & ? & ? & ? & ? & Hsf'). rewrite Hsf'.
  case_decide; by repeat constructor.
Qed.

Lemma groups_rel (l l' : list TemporalRecord) (k : datetime) :
  Forall2 same_version l l' →
  option_Forall2 same_version
    (foldl group_step ∅ l !! k) (foldl group_step ∅ l' !! k).
Proof.
  rewrite !foldl_group_lookup, !lookup_empty.
  assert (option_Forall2 same_version None None) as Ho by constructor.
  revert Ho. generalize (@None TemporalRecord) at 1 3.
  generalize (@None TemporalRecord).
  intros o' o Ho Hl. revert o o' Ho.
  induction Hl as [|r r' l l' Hr _ IH]; intros o o' Ho; simpl; [done|].
  apply IH. by apply group_pick_rel.
Qed.

(** Dictionaries with the same keys have the same sorted keys. *)
Lemma sorted_keys_eq (g g' : gmap datetime TemporalRecord) :
  (∀ k, is_Some (g !! k) ↔ is_Some (g' !! k)) →
  sorted (map_to_list g).*1 = sorted (map_to_list g').*1.
Proof.
  intros Hdom. unfold sorted.
  apply (StronglySorted_unique dt_le);
    [apply StronglySorted_merge_sort; apply _..|].
  rewrite !merge_sort_Permutation.
  apply NoDup_Permutation; [apply NoDup_fst_map_to_list..|].
  assert (Hkeys : ∀ (m : gmap datetime TemporalRecord) k,
            k ∈ (map_to_list m).*1 ↔ is_Some (m !! k)).
  { intros m k. rewrite list_elem_of_fmap. split.
    - intros ([k' r] & -> & Hin). apply elem_of_map_to_list in Hin. by exists r.
    - intros [r Hr]. exists (k, r). split; [done|]. by apply elem_of_map_to_list. }
  intros k. by rewrite !Hkeys.
Qed.

Lemma history_rows_rel (g g' : gmap datetime TemporalRecord)
    (long_name : string) (ks : list datetime) (rows rows' : list HistoryRow) :
  (∀ k, option_Forall2 same_version (g !! k) (g' !! k)) →
  Forall2 (λ k row, ∃ r, g !! k = Some r ∧ row = history_row long_name r)
    ks rows →
  Forall2 (λ k row, ∃ r, g' !! k = Some r ∧ row = history_row long_name r)
    ks rows' →
  row_without_system_to <$> rows' = row_without_system_to <$> rows.
Proof.
  intros Hg Hrows. revert rows'.
  induction Hrows as [|k row ks rows (r & Hr & ->) _ IH]; intros rows' Hrows'.
  { by apply Forall2_nil_inv_l in Hrows' as ->. }
  apply Forall2_cons_inv_l in Hrows' as (row' & rows'' & (r' & Hr' & ->) & Hrows' & ->).
  simpl. f_equal; [|by apply IH].
  specialize (Hg k). rewrite Hr, Hr' in Hg.
  inversion Hg as [? ? (Hfn & Hln & Hcode & Hv & Hu & Hvt & Hsf)|]; subst.
  unfold row_without_system_to, history_row. simpl. by rewrite Hv, Hu, Hvt, Hsf.
Qed.

(** X14: History is not erased: [delete_value] changes no row of any
    [query_history] answer apart from its [system_to] entry, and neither
    does [update_value] when the upper transaction bound of the query
    lies before the update time. *)
Theorem history_survives_mutation (self self' : TemporalDB) (op : mutation)
    (out : list (list printed)) (fname lname loinc : string)
    (valid_from valid_to : datetime) (tx_from tx_to : option datetime) :
  apply_mutation self op = Return (self', out) →
  updates [op] = 0
  ∨ dt_lt (default (current_time self) tx_to) (mutation_time self op) →
  history_without_system_to
    (query_history self' fname lname loinc valid_from valid_to tx_from tx_to)
  = history_without_system_to
      (query_history self fname lname loinc valid_from valid_to tx_from tx_to).
Proof.
  intros Hop Hcase.
  destruct (apply_mutation_closes self op) as (s1 & o1 & Hop1 & Hclock & Hstep).
  destruct (apply_mutation_frame self op)
    as (s2 & o2 & Hop2 & _ & Hnames & _ & Hlen).
  rewrite Hop in Hop1, Hop2. injection Hop1 as <- <-. injection Hop2 as <- <-.
  destruct (closes_at_versions _ _ _ Hstep) as (l0 & tail & Hl' & Hrel & Htail).
  set (f := default (datetime_ymd 1900 1 1) tx_from).
  set (u := default (current_time self) tx_to).
  change (query_history self fname lname loinc valid_from valid_to tx_from tx_to)
    with (query_history self fname lname loinc valid_from valid_to
            (Some f) (Some u)).
  change (query_history self' fname lname loinc valid_from valid_to tx_from tx_to)
    with (query_history self' fname lname loinc valid_from valid_to
            (Some f) (Some (default (current_time self') tx_to))).
  rewrite Hclock. fold u.
  destruct (query_history_rows self fname lname loinc valid_from valid_to f u)
    as (rows & -> & Hrows).
  destruct (query_history_rows self' fname lname loinc valid_from valid_to f u)
    as (rows' & -> & Hrows').
  simpl. f_equal.
  assert (Hlong : long_name_of self' loinc = long_name_of self loinc).
  { unfold long_name_of. by rewrite Hnames. }
  rewrite Hlong in Hrows'.
  assert (Hfiltered : Forall2 same_version
    (filter (in_tx_range f u)
       (filter (in_valid_range fname lname loinc valid_from valid_to)
          (records self)))
    (filter (in_tx_range f u)
       (filter (in_valid_range fname lname loinc valid_from valid_to)
          (records self')))).
  { rewrite Hl', !filter_app.
    match goal with |- Forall2 _ _ (_ ++ ?b) => assert (b = []) as -> end.
    { destruct Hcase as [Hdel|Hlt].
      - apply Forall2_length in Hrel. rewrite Hl', length_app, Hdel in Hlen.
        destruct tail; [done|]. simpl in Hlen. lia.
      - apply elem_of_nil_inv. intros r.
        rewrite !list_elem_of_filter. intros ([_ Hto] & _ & Hr).
        rewrite Forall_forall in Htail. rewrite (Htail r Hr) in Hto.
        by apply dt_not_le_lt in Hlt. }
    rewrite app_nil_r.
    apply Forall2_filter_rel.
    - apply Forall2_filter_rel; [done|].
      intros a b (Hfn & Hln & Hcode & _ & _ & Hvt & _).
      unfold in_valid_range. by rewrite Hfn, Hln, Hcode, Hvt.
    - intros a b (_ & _ & _ & _ & _ & _ & Hsf). unfold in_tx_range.
      by rewrite Hsf. }
  pose proof (λ k, groups_rel _ _ k Hfiltered) as Hgroups.
  set (g := foldl group_step ∅
              (filter (in_tx_range f u)
                 (filter (in_valid_range fname lname loinc valid_from valid_to)
                    (records self)))) in *.
  set (g' := foldl group_step ∅
               (filter (in_tx_range f u)
                  (filter (in_valid_range fname lname loinc valid_from valid_to)
                     (records self')))) in *.
  assert (sorted (map_to_list g).*1 = sorted (map_to_list g').*1) as Hkeys.
  { apply sorted_keys_eq. intros k. specialize (Hgroups k).
    destruct (g !! k), (g' !! k); inversion Hgroups; done. }
  rewrite <- Hkeys in Hrows'.
  apply (history_rows_rel g g' (long_name_of self loinc) _ rows rows' Hgroups
           Hrows Hrows').
Qed.

Lemma history_survives_mutation_witness :
  history_without_system_to
    (query_history
       (mk_db (current_time john_db)
          (<[0 := set_system_to john_record (dt 2024 2 1 0 0)]>
             (records john_db))
          (loinc_name john_db))
       "John" "Doe" "12345-6" (dt 2024 1 1 0 0) (dt 2024 1 2 0 0) None None)
  = history_without_system_to
      (query_history john_db "John" "Doe" "12345-6"
         (dt 2024 1 1 0 0) (dt 2024 1 2 0 0) None None).
Proof.
  eapply (history_survives_mutation john_db _ delete_february).
  - by vm_compute.
  - left. reflexivity.
Defined.

(** ** Ties in the history *)

Lemma filter_decompose {A} (P : A → Prop) `{!∀ x, Decision (P x)}
    (l l1 l2 : list A) (x : A) :
  filter P l = l1 ++ x :: l2 →
  ∃ before after,
    l = before ++ x :: after ∧ filter P before = l1 ∧ filter P after = l2.
Proof.
  revert l1; induction l as [|y l IH]; intros l1 Hf.
  { by destruct l1. }
  destruct (decide (P y)) as [Hy|Hy].
  - rewrite filter_cons_True in Hf by done.
    destruct l1 as [|z l1]; simpl in Hf.
    + injection Hf as -> Hf. by exists [], l.
    + injection Hf as -> Hf. destruct (IH l1 Hf) as (b & a & -> & Hb & Ha).
      exists (z :: b), a. split_and!; [done| |done].
      by rewrite filter_cons_True, Hb.
  - rewrite filter_cons_False in Hf by done.
    destruct (IH l1 Hf) as (b & a & -> & Hb & Ha).
    exists (y :: b), a. split_and!; [done| |done].
    by rewrite filter_cons_False.
Qed.

(** X15: When several records of one valid time share the greatest
    [system_from] within the bounds, the row of [query_history] is the
    one stored first: the records stored before it that qualify for the
    same valid time have a strictly smaller [system_from], those stored
    after it a smaller or equal one.  The row holds the valid time,
    value, unit, [system_from] and [system_to] of that record and the
    catalog name of the code or the code itself. *)
Theorem query_history_first_of_ties (self : TemporalDB)
    (fname lname loinc : string)
    (valid_from valid_to tx_from tx_to : datetime)
    (rows : list HistoryRow) (row : HistoryRow) :
  let qualifies r :=
    (first_name r = fname ∧ last_name r = lname ∧ loinc_num r = loinc
     ∧ dt_le valid_from (valid_time r) ∧ dt_le (valid_time r) valid_to)
    ∧ dt_le tx_from (system_from r) ∧ dt_le (system_from r) tx_to in
  query_history self fname lname loinc valid_from valid_to
    (Some tx_from) (Some tx_to) = Return rows →
  row ∈ rows →
  ∃ before r after,
    records self = before ++ r :: after
    ∧ qualifies r
    ∧ row = mk_history_row (valid_time r) (value r) (unit_ r)
              (system_from r) (system_to r)
              (default loinc (loinc_name self !! loinc))
    ∧ (∀ r', r' ∈ before → qualifies r' → valid_time r' = valid_time r →
             dt_lt (system_from r') (system_from r))
    ∧ (∀ r', r' ∈ after → qualifies r' → valid_time r' = valid_time r →
             dt_le (system_from r') (system_from r)).
Proof.
  intros qualifies Hq [i Hi]%list_elem_of_lookup.
  destruct (query_history_rows self fname lname loinc valid_from valid_to
              tx_from tx_to) as (rows0 & Hq0 & Hrows).
  rewrite Hq in Hq0. injection Hq0 as <-.
  destruct (Forall2_lookup_r _ _ _ _ _ Hrows Hi) as (k & _ & r & Hr & ->).
  rewrite foldl_group_lookup, lookup_empty, foldl_group_pick_None in Hr.
  rewrite !list_filter_filter in Hr.
  set (P := λ r : TemporalRecord,
         (valid_time r = k ∧ in_tx_range tx_from tx_to r)
         ∧ in_valid_range fname lname loinc valid_from valid_to r) in Hr.
  destruct (filter P (records self)) as [|x l'] eqn:Hf; [done|].
  injection Hr as <-.
  destruct (foldl_max_first system_from l' x) as (l1 & l2 & Heq & Hfirst).
  set (r := foldl (max_step system_from) x l') in *.
  rewrite Heq in Hf.
  destruct (filter_decompose P _ _ _ _ Hf) as (b & a & Hrec & Hb & Ha).
  assert (P r) as ((Hk & Htx) & Hvr).
  { assert (r ∈ filter P (records self)) as Hin
      by (rewrite Hf; apply elem_of_app; right; by left).
    by apply list_elem_of_filter in Hin as [? _]. }
  exists b, r, a. split_and!; try done.
  - intros r' Hr' [Hvr' Htx'] Hvt. apply Hfirst. rewrite <- Hb.
    apply list_elem_of_filter. split; [|done]. split_and!; [congruence|done..].
  - intros r' Hr' [Hvr' Htx'] Hvt. apply (foldl_max_ge system_from l' x).
    rewrite Heq. apply elem_of_app. right. right. rewrite <- Ha.
    apply list_elem_of_filter. split; [|done]. split_and!; [congruence|done..].
Qed.

Lemma query_history_first_of_ties_witness :
  ∃ before r after,
    records tie_db = before ++ r :: after
    ∧ before = [john_record] ∧ r = tie_first ∧ after = [tie_second]
    ∧ dt_lt (system_from john_record) (system_from r)
    ∧ dt_le (system_from tie_second) (system_from r).
Proof.
  destruct (query_history_first_of_ties tie_db "John" "Doe" "12345-6"
              (dt 2024 1 1 0 0) (dt 2024 1 2 0 0) (dt 2024 1 1 0 0)
              (dt 2024 6 1 0 0)
              [mk_history_row (dt 2024 1 1 10 0) "6" "mg" (dt 2024 1 5 0 0)
                 None "12345-6"]
              (mk_history_row (dt 2024 1 1 10 0) "6" "mg" (dt 2024 1 5 0 0)
                 None "12345-6"))
    as (before & r & after & Hrec & _ & Hrow & Hbefore & Hafter).
  { by vm_compute. }
  { by left. }
  destruct before as [|b0 [|b1 [|b2 before]]]; simpl in Hrec.
  - injection Hrec as <- <-. discriminate Hrow.
  - injection Hrec as <- <- <-. exists [john_record], tie_first, [tie_second].
    split_and!; [reflexivity..| |].
    + apply Hbefore; [by left|by vm_compute|reflexivity].
    + apply Hafter; [by left|by vm_compute|reflexivity].
  - injection Hrec as <- <- <- Hnil. discriminate Hrow.
  - injection Hrec as _ _ _ Hnil. by destruct before.
Defined.


(** ** Versions of a key do not overlap *)

Lemma same_key_sym r1 r2 : same_key r1 r2 → same_key r2 r1.
Proof. intros (? & ? & ? & ?). by split_and!. Qed.

Lemma same_key_trans r1 r2 r3 : same_key r1 r2 → same_key r2 r3 → same_key r1 r3.
Proof. intros (? & ? & ? & ?) (? & ? & ? & ?). split_and!; congruence. Qed.

Lemma open_alive_later r t p :
  _is_alive_at r t → system_to r = None → dt_le t p → _is_alive_at r p.
Proof.
  rewrite !alive_at_spec. intros [Hfrom _] -> Hle. split; [by etrans|done].
Qed.

Lemma closes_at_no_overlap t l l' :
  closed_by t l → no_overlap l → closes_at t l l' → no_overlap l'.
Proof.
  intros Hclosed Hno [->|(i & target & tail & Hi & Hal & -> & Htail)]; [done|].
  assert (system_to target = None) as Hopen.
  { apply (alive_open _ t Hal). intros st. apply Hclosed.
    by eapply list_elem_of_lookup_2. }
  (* where a record of the new list that is alive at [p] comes from *)
  assert (Hfrom : ∀ j r p,
    (<[i := set_system_to target t]> l ++ tail) !! j = Some r →
    _is_alive_at r p →
    (j ≠ i ∧ l !! j = Some r)
    ∨ (j = i ∧ same_key r target ∧ dt_lt p t ∧ _is_alive_at target p)
    ∨ (j = length l ∧ same_key r target ∧ dt_le t p ∧ _is_alive_at target p)).
  { intros j r p Hj Hr.
    destruct (closes_lookup _ _ _ _ _ _ _ Hi Hj) as [?|[[-> ->]|[Hlen Hr']]].
    - by left.
    - right; left. apply alive_set_system_to in Hr as [Hsf Hlt].
      split_and!; try done. apply alive_at_spec. by rewrite Hopen.
    - right; right. destruct Htail as [->|[v ->]]; [done|].
      apply list_lookup_singleton_Some in Hr' as [Hz <-].
      apply alive_at_spec in Hr as [Hle _]. simpl in Hle.
      split_and!; try done; [lia|]. by apply (open_alive_later target t). }
  intros a b ra rb p Ha Hb Hkey Hra Hrb.
  destruct (Hfrom a ra p Ha Hra) as [[Hai Ha']|[(-> & Hka & Hpa & Hta)|(-> & Hka & Hpa & Hta)]];
  destruct (Hfrom b rb p Hb Hrb) as [[Hbi Hb']|[(-> & Hkb & Hpb & Htb)|(-> & Hkb & Hpb & Htb)]];
    try done.
  - by apply (Hno a b ra rb p).
  - destruct Hai. apply (Hno a i ra target p); try done.
    eapply same_key_trans; [exact Hkey|done].
  - destruct Hai. apply (Hno a i ra target p); try done.
    eapply same_key_trans; [exact Hkey|done].
  - destruct Hbi. apply (Hno b i rb target p); try done.
    eapply same_key_trans; [apply same_key_sym; exact Hkey|done].
  - by apply dt_not_le_lt in Hpa.
  - destruct Hbi. apply (Hno b i rb target p); try done.
    eapply same_key_trans; [apply same_key_sym; exact Hkey|done].
  - by apply dt_not_le_lt in Hpb.
Qed.

(** X16: Along a sequence of [update_value] and [delete_value] calls whose
    transaction times are in order and not earlier than a [system_to]
    already in the store, the versions of a key never overlap: no two
    records of the same patient, code and valid time are alive at the
    same instant. *)
Theorem versions_never_overlap (self : TemporalDB) (ops : list mutation) :
  no_overlap (records self) → chronological self ops →
  ∃ self', run self ops = Return self' ∧ no_overlap (records self').
Proof.
  revert self; induction ops as [|op ops IH]; intros self Hno Hchron.
  { by exists self. }
  destruct (apply_mutation_closes self op) as (self1 & out & Hop & Hclock & Hstep).
  destruct (chronological_cons _ _ _ _ Hchron Hclock Hstep) as [Hclosed Hchron'].
  destruct (IH self1) as (self' & Hrun & Hno'); [|done|].
  { by eapply closes_at_no_overlap. }
  exists self'. simpl. rewrite Hop. simpl. by split.
Qed.

Lemma no_overlap_singleton r : no_overlap [r].
Proof. intros [|i] [|j] ri rj p Hi Hj; by simpl in *. Qed.

Lemma versions_never_overlap_witness :
  ∃ self', run john_db ordered_mutations = Return self'
           ∧ no_overlap (records self').
Proof.
  apply (versions_never_overlap john_db ordered_mutations).
  - apply no_overlap_singleton.
  - split.
    + repeat constructor; by vm_compute.
    + repeat constructor; apply closed_by_open; by repeat constructor.
Defined.

Lemma corrected_db_no_overlap : no_overlap (records corrected_db).
Proof.
  apply (closes_at_no_overlap (dt 2024 1 10 0 0) [john_record]).
  - apply closed_by_open. by repeat constructor.
  - apply no_overlap_singleton.
  - right. exists 0, john_record, [new_version john_record "6" (dt 2024 1 10 0 0)].
    split_and!; [done|by vm_compute|done|]. right. by eexists.
Qed.

(** X17: Without overlap an exact-time [query_value] has nothing to choose
    from: the record whose fields it returns matches the patient, code,
    day and time of day, is alive at the perspective time, and is the
    only record of the store that does. *)
Theorem exact_query_unambiguous (self : TemporalDB)
    (fname lname loinc : string) (date : datetime) (tm : time)
    (perspective : option datetime) (v : ValueResult) :
  let p := default (current_time self) perspective in
  let matches r :=
    (first_name r = fname ∧ last_name r = lname ∧ loinc_num r = loinc
     ∧ dt_date (valid_time r) = dt_date date)
    ∧ dt_time (valid_time r) = tm ∧ _is_alive_at r p in
  no_overlap (records self) →
  query_value self fname lname loinc date (Some tm) perspective
  = Return (Some v) →
  ∃ i best,
    records self !! i = Some best
    ∧ matches best
    ∧ v = mk_value_result (first_name best) (last_name best) (loinc_num best)
            (default loinc (loinc_name self !! loinc))
            (value best) (unit_ best) (valid_time best)
            (system_from best) (system_to best)
    ∧ ∀ j r, records self !! j = Some r → matches r → j = i.
Proof.
  intros p matches Hno. rewrite query_value_exact_unfold. cbv zeta. fold p.
  case_decide as Hne; [done|].
  destruct (py_max_spec system_from _ Hne) as (best & -> & Hin & _).
  simpl. intros [= <-].
  apply elem_of_exact_alive in Hin as ([i Hi]%list_elem_of_lookup & Hd & Htm & Hal).
  exists i, best. split_and!; try done.
  intros j r Hj ((Hfn & Hln & Hcode & Hdate) & Hrtm & Hr).
  apply (Hno j i r best p); try done.
  destruct Hd as (? & ? & ? & ?). split_and!; try congruence.
  apply datetime_of_parts; congruence.
Qed.


Lemma exact_query_unambiguous_witness :
  ∃ best,
    records corrected_db !! 1 = Some best
    ∧ value best = "6" ∧ system_from best = dt 2024 1 10 0 0
    ∧ system_to best = None
    ∧ ∀ j r, records corrected_db !! j = Some r →
             (first_name r = "John" ∧ last_name r = "Doe"
              ∧ loinc_num r = "12345-6"
              ∧ dt_date (valid_time r) = dt_date (dt 2024 1 1 0 0))
             ∧ dt_time (valid_time r) = mk_time 10 0 0 0
             ∧ _is_alive_at r (dt 2024 6 1 0 0) →
             j = 1.
Proof.
  destruct (exact_query_unambiguous corrected_db "John" "Doe" "12345-6"
              (dt 2024 1 1 0 0) (mk_time 10 0 0 0) None
              (mk_value_result "John" "Doe" "12345-6" "12345-6" "6" "mg"
                 (dt 2024 1 1 10 0) (dt 2024 1 10 0 0) None))
    as (i & best & Hi & _ & Hv & Honly).
  { apply corrected_db_no_overlap. }
  { by vm_compute. }
  assert (1 = i) as <-.
  { apply (Honly 1 (new_version john_record "6" (dt 2024 1 10 0 0)));
      [reflexivity|by vm_compute]. }
  exists best. injection Hv as _ _ _ Hvalue _ _ Hfrom Hto.
  split_and!; [exact Hi|by rewrite <- Hvalue|by rewrite <- Hfrom
              |by rewrite <- Hto|exact Honly].
Defined.


(** ** Finding nothing *)

(** X18: [delete_value] tells apart the two ways of finding nothing: no
    record of the patient and code on that day is alive at the delete
    time, or some is but none at the given time of day.  In both cases
    the store is returned as it was. *)
Theorem delete_value_not_found (self : TemporalDB)
    (fname lname loinc : string) (date : datetime) (time : option time)
    (t_delete : option datetime) :
  let t := default (current_time self) t_delete in
  let on_the_day r := r ∈ records self ∧ on_day_at fname lname loinc date t r in
  ((∀ r, ¬ on_the_day r) →
   delete_value self fname lname loinc date time t_delete
   = Return (self, [[PStr "No record found to delete."]]))
  ∧ ((∃ r, on_the_day r) → (∀ r, on_the_day r → ¬ at_time time r) →
     delete_value self fname lname loinc date time t_delete
     = Return (self, [[PStr "No record with this exact time."]])).
Proof.
  intros t on_the_day. unfold delete_value. fold t. cbv zeta.
  set (found := filter _ (enumerate (records self))).
  assert (Hfound : ∀ r, on_the_day r → ∃ j, (j, r) ∈ found).
  { intros r [Hr Hd].
    apply (elem_of_enumerate_filter (on_day_at fname lname loinc date t) _ r Hr Hd). }
  split.
  - intros Hnone. rewrite decide_True; [done|].
    apply elem_of_nil_inv. intros [j r] [Hd Hin]%list_elem_of_filter.
    apply elem_of_enumerate in Hin. apply (Hnone r).
    split; [by eapply list_elem_of_lookup_2|done].
  - intros [r0 Hr0] Hnone. destruct (Hfound r0 Hr0) as [j0 Hj0].
    rewrite decide_False by by eapply elem_of_not_nil.
    destruct time as [tm|]; [|by destruct (Hnone r0 Hr0)].
    rewrite decide_True; [done|].
    apply elem_of_nil_inv. intros [j r] [Htm [Hd Hin]%list_elem_of_filter]%list_elem_of_filter.
    apply elem_of_enumerate in Hin. apply (Hnone r); [|done].
    split; [by eapply list_elem_of_lookup_2|done].
Qed.

Lemma delete_value_not_found_witness :
  delete_value john_db "John" "Doe" "12345-6" (dt 2024 1 1 0 0)
    (Some (mk_time 11 0 0 0)) None
  = Return (john_db, [[PStr "No record with this exact time."]]).
Proof.
  apply (proj2 (delete_value_not_found john_db "John" "Doe" "12345-6"
                  (dt 2024 1 1 0 0) (Some (mk_time 11 0 0 0)) None)).
  - exists john_record. split; [by left|by vm_compute].
  - intros r [Hr _]. apply list_elem_of_singleton in Hr as ->. by vm_compute.
Defined.

(** X19: From a perspective before the [system_from] of every record nothing
    is known: [query_value] finds nothing, and so does [query_history]
    when its upper transaction bound is that early. *)
Theorem nothing_known_before_first_transaction (self : TemporalDB)
    (fname lname loinc : string) (date : datetime) (time : option time)
    (valid_from valid_to : datetime) (tx_from : option datetime)
    (p : datetime) :
  (∀ r, r ∈ records self → dt_lt p (system_from r)) →
  query_value self fname lname loinc date time (Some p) = Return None
  ∧ query_history self fname lname loinc valid_from valid_to tx_from (Some p)
    = Return [].
Proof.
  intros Hearly.
  assert (Hdead : ∀ l, (∀ r, r ∈ l → r ∈ records self) →
            filter (λ r, _is_alive_at r p) l = []).
  { intros l Hl. apply filter_none_alive, Forall_forall.
    intros r Hr%Hl%Hearly [Hle _]%alive_at_spec. by apply dt_not_le_lt in Hr. }
  split.
  - destruct time as [tm|].
    + rewrite query_value_exact_unfold. cbv zeta. unfold exact_alive.
      rewrite Hdead; [done|].
      by intros r [_ [_ ?]%list_elem_of_filter]%list_elem_of_filter.
    + rewrite query_value_day_unfold. cbv zeta. unfold day_alive.
      rewrite Hdead; [done|]. by intros r [_ ?]%list_elem_of_filter.
  - unfold query_history. cbn [default from_option id].
    match goal with |- context [filter (in_tx_range ?f p) ?l] =>
      assert (filter (in_tx_range f p) l = []) as -> end; [|done].
    apply elem_of_nil_inv. intros r [[_ Hto] [_ Hr]%list_elem_of_filter]%list_elem_of_filter.
    apply Hearly in Hr. by apply dt_not_le_lt in Hr.
Qed.

Lemma nothing_known_before_first_transaction_witness :
  query_value john_db "John" "Doe" "12345-6" (dt 2024 1 1 0 0) None
    (Some (dt 2023 12 31 0 0)) = Return None
  ∧ query_history john_db "John" "Doe" "12345-6" (dt 2024 1 1 0 0)
      (dt 2024 1 2 0 0) None (Some (dt 2023 12 31 0 0)) = Return [].
Proof.
  apply (nothing_known_before_first_transaction john_db).
  intros r Hr. apply list_elem_of_singleton in Hr as ->. by vm_compute.
Defined.


Lemma query_history_empty_witness :
  query_history john_db "John" "Doe" "12345-6"
    (dt 2024 1 2 0 0) (dt 2024 1 1 0 0)
    (Some (dt 2024 1 1 0 0)) (Some (dt 2024 6 1 0 0))
  = Return [].
Proof.
  apply (proj2 (query_history_empty john_db "John" "Doe" "12345-6"
                  (dt 2024 1 2 0 0) (dt 2024 1 1 0 0)
                  (dt 2024 1 1 0 0) (dt 2024 6 1 0 0))).
  left. by vm_compute.
Defined.
